(** * 2D launch simulation: the trajectory core of [main_e.py]

    The development embeds the [Stage] class, [EqOfM] and [euler] of
    [main_e.py] and proves the properties its specification states.

    Numbers.  The program computes with Python floats and numpy float64
    values.  The embedding is written once, over an interface [Arith] of
    the operations the program uses ([+], [-], [*], [/], integer powers,
    the comparisons, the test of a divisor against zero and the length of
    [np.arange]), and no law of arithmetic is assumed of them: a
    comparison may fail both ways, as on nan, and a sum need not be exact.
    What is proved over the interface holds of the program as it runs.

    Two implementations of the interface are given.  [exact] is the
    rationals with exact operations: statements about the values the
    formulas of the program denote (a burn time, the gap of the drag
    coefficient at a breakpoint) are made there, and hold of the program up
    to rounding.  [binary64] is the kernel's IEEE 754 double precision:
    it is used to run the program on inputs where rounding or nan decides
    how a run ends.

    What the source takes from elsewhere (the [atmosphere] module and the
    numpy functions [sqrt], [cos], [sin], [arctan2], [deg2rad] and the power
    with a fractional exponent) is a second interface, [Externals]; every
    theorem holds for every implementation of it. *)

From Stdlib Require Import QArith Qround Qabs Lqa Lia ZArith String.
From Stdlib Require Import Uint63 Floats.PrimFloat Floats.SpecFloat Floats.FloatOps.
From stdpp Require Import base option list.

Set Warnings "-inexact-float".
Local Open Scope Q_scope.

(** ** Exceptions, standard output and the monad of Python computations *)

Inductive exn : Set :=
| ZeroDivisionError
| IndexError
| UnboundLocalError
| ValueError
| OverflowError.

(** [Diverged] is not a Python outcome: it is what a loop of the model
    returns when its fuel is used up before the loop has ended. *)
Inductive outcome (A : Type) : Type :=
| Ok (a : A)
| Raise (e : exn)
| Diverged.
Arguments Ok {A} a.
Arguments Raise {A} e.
Arguments Diverged {A}.

(** A computation yields the lines it printed and how it ended. *)
Record Py (A : Type) : Type := mkPy { stdout : list string; result : outcome A }.
Arguments mkPy {A} stdout result.
Arguments stdout {A} p.
Arguments result {A} p.

#[global] Instance Py_ret : MRet Py := fun A a => mkPy [] (Ok a).

#[global] Instance Py_bind : MBind Py := fun A B f m =>
  match result m with
  | Ok a => let r := f a in mkPy (stdout m ++ stdout r) (result r)
  | Raise e => mkPy (stdout m) (Raise e)
  | Diverged => mkPy (stdout m) Diverged
  end.

Definition raise {A} (e : exn) : Py A := mkPy [] (Raise e).
Definition diverge {A} : Py A := mkPy [] Diverged.
Definition print (line : string) : Py unit := mkPy [line] (Ok tt).

(** [l[i]] and [l[i] = v] with an index that is not negative. *)
Definition getitem {A} (l : list A) (i : nat) : Py A :=
  match l !! i with
  | Some a => mret a
  | None => raise IndexError
  end.

Definition setitem {A} (l : list A) (i : nat) (v : A) : Py (list A) :=
  if decide (i < length l)%nat then mret (<[i:=v]> l) else raise IndexError.

(** A local variable that is read: unbound when no branch assigned it. *)
Definition local {A} (v : option A) : Py A :=
  match v with
  | Some a => mret a
  | None => raise UnboundLocalError
  end.

(** ** The arithmetic of the program *)

Class Arith (num : Type) : Type := {
  (** the number a literal of the source denotes *)
  lit : Q -> num;
  add : num -> num -> num;
  sub : num -> num -> num;
  mul : num -> num -> num;
  (** numpy's [/], which does not raise, and Python's at a divisor that
      is not zero *)
  div : num -> num -> num;
  neg : num -> num;
  (** [x ** k] for an integer [k] *)
  pow : num -> Z -> num;
  leb : num -> num -> bool;
  ltb : num -> num -> bool;
  (** [y == 0], the test Python's [/] makes of its divisor *)
  is_zero : num -> bool;
  (** [len(np.arange(start, stop, step))], or the exception it raises *)
  np_arange_len : num -> num -> num -> exn + nat
}.
Arguments lit {num _} _%_Q.

Declare Scope num_scope.
Delimit Scope num_scope with num.
Notation "x + y" := (add x y) : num_scope.
Notation "x - y" := (sub x y) : num_scope.
Notation "x * y" := (mul x y) : num_scope.
Notation "x / y" := (div x y) : num_scope.
Notation "- x" := (neg x) : num_scope.
Notation "x ^ k" := (pow x k%Z) : num_scope.
Notation "x <=? y" := (leb x y) : num_scope.
Notation "x <? y" := (ltb x y) : num_scope.
Notation "x >? y" := (ltb y x) : num_scope.

(** Python's [/] on floats raises at a zero divisor. *)
Definition py_div {num} `{Arith num} (x y : num) : Py num :=
  if is_zero y then raise ZeroDivisionError else mret (x / y)%num.

(** *** Exact arithmetic *)

Definition Qlt_bool (x y : Q) : bool :=
  (Qnum x * QDen y <? Qnum y * QDen x)%Z.
Notation "x <=? y" := (Qle_bool x y) : Q_scope.
Notation "x <? y" := (Qlt_bool x y) : Q_scope.
Notation "x >? y" := (Qlt_bool y x) : Q_scope.

(** The rationals.  [np.arange] has as many elements as the ceiling of
    [(stop - start) / step], and none where that is negative. *)
#[global] Instance exact : Arith Q := {|
  lit q := q;
  add := Qplus;
  sub := Qminus;
  mul := Qmult;
  div := Qdiv;
  neg := Qopp;
  pow := Qpower;
  leb := Qle_bool;
  ltb := Qlt_bool;
  is_zero y := Qeq_bool y 0;
  np_arange_len start stop step :=
    if Qeq_bool step 0 then inl ZeroDivisionError
    else inr (Z.to_nat (Qceiling ((stop - start) / step)))
|}.

(** *** Double precision *)

Module Binary64.
Local Open Scope float_scope.

Definition of_Z (z : Z) : float :=
  match z with
  | Z0 => 0
  | Zpos p => of_uint63 (Uint63.of_Z (Zpos p))
  | Zneg p => - of_uint63 (Uint63.of_Z (Zpos p))
  end.

(** The double nearest to a decimal literal: the quotient, rounded once, of
    its numerator and denominator (both below [2^53] in lowest terms for
    the literals of the program, so exact as doubles). *)
Definition of_Q (q : Q) : float :=
  of_Z (Qnum (Qred q)) / of_Z (Zpos (Qden (Qred q))).

(** An integer power as a product. *)
Definition pow (x : float) (k : Z) : float :=
  match k with
  | Z0 => 1
  | Zpos p => Pos.iter (fun y => y * x) 1 p
  | Zneg p => 1 / Pos.iter (fun y => y * x) 1 p
  end.

(** The ceiling of a double. *)
Definition ceil (x : float) : exn + Z :=
  match Prim2SF x with
  | S754_zero _ => inr 0%Z
  | S754_infinity _ => inl OverflowError
  | S754_nan => inl ValueError
  | S754_finite s m e =>
      let n := match e with
               | Z0 => Zpos m
               | Zpos k => (Zpos m * 2 ^ Zpos k)%Z
               | Zneg k =>
                   if s then (Zpos m / 2 ^ Zpos k)%Z
                   else ((Zpos m + 2 ^ Zpos k - 1) / 2 ^ Zpos k)%Z
               end in
      inr (if s then (- n)%Z else n)
  end.

(** numpy divides [stop - start] by [step] in double precision and takes
    the ceiling of the quotient. *)
Definition arange_len (start stop step : float) : exn + nat :=
  if step =? 0 then inl ZeroDivisionError
  else match ceil ((stop - start) / step) with
       | inl e => inl e
       | inr n => inr (Z.to_nat n)
       end.
End Binary64.

#[global] Instance binary64 : Arith float := {|
  lit := Binary64.of_Q;
  add := PrimFloat.add;
  sub := PrimFloat.sub;
  mul := PrimFloat.mul;
  div := PrimFloat.div;
  neg := PrimFloat.opp;
  pow := Binary64.pow;
  leb := PrimFloat.leb;
  ltb := PrimFloat.ltb;
  is_zero y := PrimFloat.eqb y 0%float;
  np_arange_len := Binary64.arange_len
|}.

(** ** What the program imports *)

Class Externals (num : Type) : Type := {
  (** [atmosphere.Atmosphere(h)]: temperature and density at altitude [h] *)
  Atmosphere : num -> num * num;
  np_sqrt : num -> num;
  np_cos : num -> num;
  np_sin : num -> num;
  np_arctan2 : num -> num -> num;
  np_deg2rad : num -> num;
  (** [x ** e] for an exponent [e] that is not an integer *)
  np_power : num -> num -> num
}.

Local Open Scope num_scope.

(** ** The Stage class *)

Module Stage.

Record t (num : Type) : Type := mk {
  Name : string;
  Thrust : num;
  Cd : num;
  A : num;
  Isp : num;
  Ms : num;
  Mf : num;
  Mp : num;
  mdot : num;
  tb : num;
  M : num
}.
Arguments mk {num}.
Arguments Name {num}.
Arguments Thrust {num}.
Arguments Cd {num}.
Arguments A {num}.
Arguments Isp {num}.
Arguments Ms {num}.
Arguments Mf {num}.
Arguments Mp {num}.
Arguments mdot {num}.
Arguments tb {num}.
Arguments M {num}.

Section Stage.
Context {num : Type} {AR : Arith num}.

(** [Stage.__init__] *)
Definition init (Name : string) (Thrust Cd A Isp Ms Mf Mp : num) : Py (t num) :=
  mdot ← py_div Thrust (Isp * lit 9.81);
  tb ← py_div Mf mdot;
  let M := Ms + Mf + Mp in
  mret (mk Name Thrust Cd A Isp Ms Mf Mp mdot tb M).

(** The four expressions of the drag coefficient, in the order of the
    branches of [GetDrag]. *)
Definition Cd_low (M : num) : num :=
  lit (-0.0415) * M^3 + lit 0.3892 * M^2 - lit 0.2614 * M + lit 0.303.

Definition Cd_mid (M : num) : num :=
  lit (-0.049) * M^4 + lit 0.5664 * M^3 - lit 2.3265 * M^2 + lit 3.8512 * M
  - lit 1.6625.

Definition Cd_high (M : num) : num :=
  lit (-0.0037) * M^3 + lit 0.0695 * M^2 - lit 0.4105 * M + lit 0.9732.

Definition Cd_top : num := lit 0.255.

(** The [if]/[elif] chain of [GetDrag]: the value bound to the local
    [Cd], none when no branch is taken. *)
Definition Cd_of_Mach (M : num) : option num :=
  if M <=? lit 1.25 then Some (Cd_low M)
  else if (M >? lit 1.25) && (M <=? lit 4) then Some (Cd_mid M)
  else if (M >? lit 4) && (M <=? lit 10) then Some (Cd_high M)
  else if M >? lit 10 then Some Cd_top
  else None.
End Stage.

Section GetDrag.
Context {num : Type} {AR : Arith num} {EX : Externals num}.

Definition GetDrag (self : t num) (h V vx vy : num) : Py (num * num) :=
  let gamma := lit 1.14 in
  let R := lit 287 in
  let '(T, rho) := Atmosphere h in
  let A := np_sqrt (gamma * R * T) in
  let M := V / A in
  Cd ← local (Cd_of_Mach M);
  let Dx := lit 0.5 * rho * vx * V * Stage.A self * Cd in
  let Dy := lit 0.5 * rho * vy * V * Stage.A self * Cd in
  mret (Dx, Dy).
End GetDrag.

End Stage.

(** ** The equations of motion *)

(** A state, and its derivative: [np.array([rx, ry, vx, vy])]. *)
Module State.
Record t (num : Type) : Type := mk { rx : num; ry : num; vx : num; vy : num }.
Arguments mk {num}.
Arguments rx {num}.
Arguments ry {num}.
Arguments vx {num}.
Arguments vy {num}.
End State.

(** The vehicle state [np.array([Tx, Ty, Dx, Dy, M, phi])] of one step. *)
Module Diag.
Record t (num : Type) : Type :=
  mk { Tx : num; Ty : num; Dx : num; Dy : num; M : num; phi : num }.
Arguments mk {num}.
Arguments Tx {num}.
Arguments Ty {num}.
Arguments Dx {num}.
Arguments Dy {num}.
Arguments M {num}.
Arguments phi {num}.
Definition zeros {num} `{Arith num} : t num :=
  mk (lit 0) (lit 0) (lit 0) (lit 0) (lit 0) (lit 0).
End Diag.

Definition altitude_notice : string :=
  "Solution terminated, flight altitude less than 0".

Section EqOfM.
Context {num : Type} {AR : Arith num} {EX : Externals num}.

(** Mass and thrust of the burning stage (the [if]/[elif] on [t]): [TT]
    starts at 0 and the local [M] is bound by a branch only. *)
Definition mass_and_thrust (t : num) (F9S1 F9S2 : Stage.t num)
  : option num * num :=
  if t <=? Stage.tb F9S1 then
    (Some (Stage.M F9S1 - Stage.mdot F9S1 * t), Stage.Thrust F9S1)
  else if t >? Stage.tb F9S1 then
    (Some (Stage.M F9S2 - Stage.mdot F9S2 * (t - Stage.tb F9S1)),
     Stage.Thrust F9S2)
  else (None, lit 0).

(** The thrust angle [psi] (the gravity turn). *)
Definition thrust_angle (t : num) (F9S1 : Stage.t num) (h phi : num) : num :=
  let psi := np_deg2rad (lit 90) in
  let kick := np_deg2rad (lit 83) in
  if t <? Stage.tb F9S1 + lit 300 then
    if h >? lit 100 then
      if phi >? kick then np_deg2rad (lit 87)
      else if phi <=? kick then phi
      else psi
    else psi
  else psi.

Definition EqOfM (STATE : State.t num) (t : num) (stages : list (Stage.t num))
  : Py (State.t num * Diag.t num) :=
  let mu := lit 3.986e14 in
  let Re := lit 6378e3 in
  let rx := State.rx STATE in
  let ry := State.ry STATE in
  let vx := State.vx STATE in
  let vy := State.vy STATE in
  let R := np_power (rx^2 + ry^2) (lit 0.5) in
  let V := np_power (vx^2 + vy^2) (lit 0.5) in
  let h := R - Re in
  let gx := - mu * rx / np_power (rx^2 + ry^2) (lit 1.5) in
  let gy := - mu * ry / np_power (rx^2 + ry^2) (lit 1.5) in
  F9S1 ← getitem stages 0;
  F9S2 ← getitem stages 1;
  let '(M, TT) := mass_and_thrust t F9S1 F9S2 in
  let phi := np_arctan2 vy vx in
  let psi := thrust_angle t F9S1 h phi in
  let Tx := TT * np_cos psi in
  let Ty := TT * np_sin psi in
  D ← Stage.GetDrag F9S1 (R - lit 6378e3) V vx vy;
  let Dx := D.1 in
  let Dy := D.2 in
  let rx' := vx in
  let ry' := vy in
  M ← local M;
  let vx' := Tx / M - Dx / M + gx in
  let vy' := Ty / M - Dy / M + gy in
  _ ← (if t >? lit 0 then
         if R - Re <=? lit 0 then print altitude_notice else mret tt
       else mret tt);
  let v_state := Diag.mk Tx Ty Dx Dy M phi in
  mret (State.mk rx' ry' vx' vy', v_state).
End EqOfM.

(** ** The integrator *)

(** A row [(t, x, y, vx, vy)] of the state matrix [STATEF]. *)
Module TableRow.
Record t (num : Type) : Type :=
  mk { T : num; X : num; Y : num; Vx : num; Vy : num }.
Arguments mk {num}.
Arguments T {num}.
Arguments X {num}.
Arguments Y {num}.
Arguments Vx {num}.
Arguments Vy {num}.
End TableRow.

(** The arrays the loop of [euler] writes to. *)
Record Arrays (num : Type) : Type := mkArrays {
  X : list num;
  Y : list num;
  Vx : list num;
  Vy : list num;
  T_array : list num;
  v_states : list (Diag.t num)
}.
Arguments mkArrays {num}.
Arguments X {num}.
Arguments Y {num}.
Arguments Vx {num}.
Arguments Vy {num}.
Arguments T_array {num}.
Arguments v_states {num}.

(** The state matrix: column 0 is [T_array], columns 1 to 4 are [X], [Y],
    [Vx] and [Vy] (all of one length). *)
Definition STATEF_of {num} (a : Arrays num) : list (TableRow.t num) :=
  zip_with (fun f vy => f vy)
    (zip_with (fun f vx => f vx)
       (zip_with (fun f y => f y)
          (zip_with TableRow.mk (T_array a) (X a)) (Y a)) (Vx a)) (Vy a).

Section euler.
Context {num : Type} {AR : Arith num} {EX : Externals num}.

(** [np.zeros(n)] and [np.zeros((n, 6))]. *)
Definition np_zeros (n : nat) : list num := replicate n (lit 0).
Definition np_zeros6 (n : nat) : list (Diag.t num) := replicate n Diag.zeros.

(** [len(np.arange(start, stop, step))] *)
Definition arange_len (start stop step : num) : Py nat :=
  match np_arange_len start stop step with
  | inl e => raise e
  | inr n => mret n
  end.

(** The [while t < Tf] loop; it returns the final [t], [n] and arrays. *)
Fixpoint euler_loop (fuel : nat) (dt Tf : num) (stages : list (Stage.t num))
    (t : num) (n : nat) (a : Arrays num) : Py (num * nat * Arrays num) :=
  if t <? Tf then
    match fuel with
    | O => diverge
    | S fuel =>
        Xn ← getitem (X a) n;
        Yn ← getitem (Y a) n;
        Vxn ← getitem (Vx a) n;
        Vyn ← getitem (Vy a) n;
        let STATE := State.mk Xn Yn Vxn Vyn in
        S ← EqOfM STATE t stages;
        X' ← setitem (X a) (n + 1) (Xn + dt * State.rx S.1);
        Y' ← setitem (Y a) (n + 1) (Yn + dt * State.ry S.1);
        Vx' ← setitem (Vx a) (n + 1) (Vxn + dt * State.vx S.1);
        Vy' ← setitem (Vy a) (n + 1) (Vyn + dt * State.vy S.1);
        v_states' ← setitem (v_states a) n S.2;
        let t := t + dt in
        T_array' ← setitem (T_array a) (n + 1) t;
        let n := (n + 1)%nat in
        euler_loop fuel dt Tf stages t n
          (mkArrays X' Y' Vx' Vy' T_array' v_states')
    end
  else mret (t, n, a).

(** The arrays as [euler] allocates and initialises them. *)
Definition euler_alloc (STATE0 : State.t num) (steps : nat) : Py (Arrays num) :=
  let X := np_zeros (steps + 1) in
  let Y := np_zeros (steps + 1) in
  let Vx := np_zeros (steps + 1) in
  let Vy := np_zeros (steps + 1) in
  let T_array := np_zeros (steps + 1) in
  let v_states := np_zeros6 (steps + 1) in
  X ← setitem X 0 (State.rx STATE0);
  Y ← setitem Y 0 (State.ry STATE0);
  Vx ← setitem Vx 0 (State.vx STATE0);
  Vy ← setitem Vy 0 (State.vy STATE0);
  mret (mkArrays X Y Vx Vy T_array v_states).

(** The loop of [euler] from its initial arrays.  A pass of the loop
    writes row [n + 1], so after [steps] passes a further one raises:
    [steps + 1] units of fuel are never used up ([euler_ends]). *)
Definition euler_run (STATE0 : State.t num) (t0 dt Tf : num)
    (stages : list (Stage.t num)) : Py (num * nat * Arrays num) :=
  steps ← arange_len t0 Tf dt;
  a ← euler_alloc STATE0 steps;
  let t := t0 in
  let n := 0%nat in
  euler_loop (steps + 1) dt Tf stages t n a.

Definition euler (STATE0 : State.t num) (t0 dt Tf : num)
    (stages : list (Stage.t num))
  : Py (list (TableRow.t num) * list (Diag.t num)) :=
  r ← euler_run STATE0 t0 dt Tf stages;
  let a := r.2 in
  mret (STATEF_of a, v_states a).
End euler.

(** ** Definitions the statements use *)

(** The list [f 0, ..., f (n - 1)]. *)
Definition tabulate {A} (n : nat) (f : nat -> A) : list A := f <$> seq 0 n.

(** A stage with other aerodynamic parameters. *)
Definition with_aero {num} (s : Stage.t num) (Cd A : num) : Stage.t num :=
  Stage.mk (Stage.Name s) (Stage.Thrust s) Cd A (Stage.Isp s) (Stage.Ms s)
           (Stage.Mf s) (Stage.Mp s) (Stage.mdot s) (Stage.tb s) (Stage.M s).

Definition state_of {num} (r : TableRow.t num) : State.t num :=
  State.mk (TableRow.X r) (TableRow.Y r) (TableRow.Vx r) (TableRow.Vy r).

Section trajectory.
Context {num : Type} {AR : Arith num} {EX : Externals num}.

(** The values the loop variable [t] of [euler] takes: [t0] on entry and
    [dt] more after every pass. *)
Fixpoint time_of (t0 dt : num) (n : nat) : num :=
  match n with
  | O => t0
  | S n => time_of t0 dt n + dt
  end.

(** One step of the explicit Euler method on the state. *)
Definition euler_step (dt : num) (s d : State.t num) : State.t num :=
  State.mk (State.rx s + dt * State.rx d) (State.ry s + dt * State.ry d)
           (State.vx s + dt * State.vx d) (State.vy s + dt * State.vy d).

(** What [EqOfM] returns, where it returns. *)
Definition EqOfM_value (s : State.t num) (t : num) (stages : list (Stage.t num))
  : State.t num * Diag.t num :=
  match result (EqOfM s t stages) with
  | Ok r => r
  | _ => (s, Diag.zeros)
  end.

(** The state after [n] steps from [STATE0] at [t0]. *)
Fixpoint state_at (STATE0 : State.t num) (t0 dt : num)
    (stages : list (Stage.t num)) (n : nat) : State.t num :=
  match n with
  | O => STATE0
  | S n =>
      let s := state_at STATE0 t0 dt stages n in
      euler_step dt s (EqOfM_value s (time_of t0 dt n) stages).1
  end.

Definition diag_at (STATE0 : State.t num) (t0 dt : num)
    (stages : list (Stage.t num)) (n : nat) : Diag.t num :=
  (EqOfM_value (state_at STATE0 t0 dt stages n) (time_of t0 dt n) stages).2.

(** The altitude [EqOfM] tests for its notice. *)
Definition altitude (s : State.t num) : num :=
  np_power ((State.rx s)^2 + (State.ry s)^2) (lit 0.5) - lit 6378e3.

(** The lines the altitude check of [EqOfM] prints at a state and time. *)
Definition notices (s : State.t num) (t : num) : list string :=
  if (t >? lit 0) && (altitude s <=? lit 0) then [altitude_notice] else [].

(** Speed, flight-path angle and gravity at a state. *)
Definition speed (s : State.t num) : num :=
  np_power ((State.vx s)^2 + (State.vy s)^2) (lit 0.5).

Definition flight_path (s : State.t num) : num :=
  np_arctan2 (State.vy s) (State.vx s).

Definition gravity (s : State.t num) : num * num :=
  (- lit 3.986e14 * State.rx s
     / np_power ((State.rx s)^2 + (State.ry s)^2) (lit 1.5),
   - lit 3.986e14 * State.ry s
     / np_power ((State.rx s)^2 + (State.ry s)^2) (lit 1.5)).

(** The Mach number [GetDrag] computes, and the drag it returns for the
    coefficient [Cd] its chain binds. *)
Definition Mach (h V : num) : num :=
  V / np_sqrt (lit 1.14 * lit 287 * (Atmosphere h).1).

Definition drag_with (A h V vx vy Cd : num) : num * num :=
  (lit 0.5 * (Atmosphere h).2 * vx * V * A * Cd,
   lit 0.5 * (Atmosphere h).2 * vy * V * A * Cd).

(** The arrays of [euler] with [steps + 1] rows after [k] passes of its
    loop: rows up to [k] of the state columns are written, rows 1 to [k]
    of the time column, rows below [k] of the vehicle states; every other
    entry still is the zero it was allocated with. *)
Definition arrays_at (STATE0 : State.t num) (t0 dt : num)
    (stages : list (Stage.t num)) (steps k : nat) : Arrays num :=
  let st := state_at STATE0 t0 dt stages in
  let col (f : State.t num -> num) :=
    tabulate (steps + 1)
      (fun i => if decide (i <= k)%nat then f (st i) else lit 0) in
  mkArrays (col State.rx) (col State.ry) (col State.vx) (col State.vy)
    (tabulate (steps + 1)
       (fun i => if decide (1 <= i <= k)%nat then time_of t0 dt i else lit 0))
    (tabulate (steps + 1)
       (fun i => if decide (i < k)%nat then diag_at STATE0 t0 dt stages i
                 else Diag.zeros)).

(** The lines printed by the passes [k], ..., [k + m - 1]. *)
Definition printed (STATE0 : State.t num) (t0 dt : num)
    (stages : list (Stage.t num)) (k m : nat) : list string :=
  flat_map (fun i => stdout (EqOfM (state_at STATE0 t0 dt stages i)
                               (time_of t0 dt i) stages))
           (seq k m).

(** The passes the loop makes before its test fails: [n] of them. *)
Definition passes (t0 dt Tf : num) (n : nat) : Prop :=
  (forall i : nat, (i < n)%nat -> (time_of t0 dt i <? Tf) = true) /\
  (time_of t0 dt n <? Tf) = false.

(** What [EqOfM] returns for the values its branches bind: the mass [m],
    the thrust [TT] and the drag [D]. *)
Definition motion_of (s : State.t num) (t : num) (F9S1 : Stage.t num)
    (m TT : num) (D : num * num) : State.t num * Diag.t num :=
  let phi := flight_path s in
  let psi := thrust_angle t F9S1 (altitude s) phi in
  let g := gravity s in
  (State.mk (State.vx s) (State.vy s)
     (TT * np_cos psi / m - D.1 / m + g.1)
     (TT * np_sin psi / m - D.2 / m + g.2),
   Diag.mk (TT * np_cos psi) (TT * np_sin psi) D.1 D.2 m phi).
End trajectory.

Local Close Scope num_scope.

(** *** In exact arithmetic *)

(** The drag coefficient as the specification words it: four regimes with
    the breakpoints 1.25, 4 and 10. *)
Definition Cd_piecewise (M : Q) : Q :=
  if Qle_bool M 1.25 then Stage.Cd_low M
  else if Qle_bool M 4 then Stage.Cd_mid M
  else if Qle_bool M 10 then Stage.Cd_high M
  else Stage.Cd_top.

(** Each breakpoint with the expression in force up to it and the one in
    force beyond it. *)
Definition Cd_breakpoints : list (Q * (Q -> Q) * (Q -> Q)) :=
  [ (1.25, Stage.Cd_low, Stage.Cd_mid);
    (4, Stage.Cd_mid, Stage.Cd_high);
    (10, Stage.Cd_high, fun _ => Stage.Cd_top) ].

Definition nearly_equal (tol a b : Q) : Prop := Qabs (a - b) <= tol.

(** The curve is continuous within [tol] at every breakpoint. *)
Definition Cd_continuous_within (tol : Q) : Prop :=
  Forall (fun b => nearly_equal tol (b.1.2 b.1.1) (b.2 b.1.1)) Cd_breakpoints.

(** The number of steps [euler] allocates rows for. *)
Definition steps_of (t0 dt Tf : Q) : nat :=
  Z.to_nat (Qceiling ((Tf - t0) / dt)).

(** Mass and thrust of the burning stage as the specification words them:
    stage 1 up to and at its burn time, stage 2 after it. *)
Definition active_mass (t : Q) (stage1 stage2 : Stage.t Q) : Q :=
  if Qle_bool t (Stage.tb stage1) then Stage.M stage1 - Stage.mdot stage1 * t
  else Stage.M stage2 - Stage.mdot stage2 * (t - Stage.tb stage1).

Definition active_thrust (t : Q) (stage1 stage2 : Stage.t Q) : Q :=
  if Qle_bool t (Stage.tb stage1) then Stage.Thrust stage1
  else Stage.Thrust stage2.

Section quantities.
Context {EX : Externals Q}.

(** The thrust angle as the specification words it. *)
Definition gravity_turn_angle (t : Q) (stage1 : Stage.t Q) (h phi : Q) : Q :=
  if Qlt_bool t (Stage.tb stage1 + 300) && Qlt_bool 100 h then
    if Qlt_bool (np_deg2rad 83) phi then np_deg2rad 87 else phi
  else np_deg2rad 90.

(** The drag force on a body of reference area [A]. *)
Definition drag_force (A h V vx vy : Q) : Q * Q :=
  let T := (Atmosphere h).1 in
  let rho := (Atmosphere h).2 in
  let M := V / np_sqrt (1.14 * 287 * T) in
  (0.5 * rho * vx * V * A * Cd_piecewise M,
   0.5 * rho * vy * V * A * Cd_piecewise M).

(** The derivative and the vehicle state at [s] and [t], with drag taken
    on the reference area [A]. *)
Definition motion (A : Q) (s : State.t Q) (t : Q) (stage1 stage2 : Stage.t Q)
  : State.t Q * Diag.t Q :=
  let m := active_mass t stage1 stage2 in
  let TT := active_thrust t stage1 stage2 in
  let phi := flight_path s in
  let psi := gravity_turn_angle t stage1 (altitude s) phi in
  let D := drag_force A (altitude s) (speed s) (State.vx s) (State.vy s) in
  let g := gravity s in
  (State.mk (State.vx s) (State.vy s)
     (TT * np_cos psi / m - D.1 / m + g.1)
     (TT * np_sin psi / m - D.2 / m + g.2),
   Diag.mk (TT * np_cos psi) (TT * np_sin psi) D.1 D.2 m phi).
End quantities.

(** ** Implementations of the imports, to run the model *)

(** Coarse rational versions of the numpy functions and a constant
    atmosphere (sea level); results are cut to six decimals. *)
Module Sample.
Definition cut (x : Q) : Q := Qfloor (x * 1000000) # 1000000.
Definition pi : Q := 3.141593.
Definition sqrt (x : Q) : Q := Z.sqrt (Qfloor (x * 1000000000000)) # 1000000.
Definition power (x e : Q) : Q :=
  if Qeq_bool e 0.5 then sqrt x
  else if Qeq_bool e 1.5 then cut (x * sqrt x)
  else 1.
Definition cos (x : Q) : Q := cut (1 - x^2 / 2 + x^4 / 24 - x^6 / 720).
Definition sin (x : Q) : Q := cut (x - x^3 / 6 + x^5 / 120 - x^7 / 5040).
Definition arctan (z : Q) : Q := cut (z / (1 + 0.28 * z^2)).
Definition arctan2 (y x : Q) : Q :=
  if Qle_bool (Qabs y) (Qabs x) then
    if Qeq_bool x 0 then 0
    else if Qle_bool 0 x then arctan (y / x)
    else if Qle_bool 0 y then arctan (y / x) + pi
    else arctan (y / x) - pi
  else if Qle_bool 0 y then pi / 2 - arctan (x / y)
  else - pi / 2 - arctan (x / y).
Definition deg2rad (d : Q) : Q := cut (d * pi / 180).

Definition externals : Externals Q := {|
  Atmosphere := fun _ => (288.15, 1.225);
  np_sqrt := sqrt;
  np_cos := cos;
  np_sin := sin;
  np_arctan2 := arctan2;
  np_deg2rad := deg2rad;
  np_power := power
|}.

(** A stage with the drag coefficient and area of [main], as the
    constructor builds it. *)
Definition stage (name : string) (thrust isp ms mf mp : Q) : Stage.t Q :=
  Stage.mk name thrust 0.3 10.75 isp ms mf mp
           (thrust / (isp * 9.81)) (mf / (thrust / (isp * 9.81)))
           (ms + mf + mp).
End Sample.

(** The same in double precision: the square root is IEEE's, the other
    functions are short polynomials. *)
Module Sample64.
Local Open Scope float_scope.
Definition pi : float := 3.141592653589793.
Definition power (x e : float) : float :=
  if e =? 0.5 then sqrt x
  else if e =? 1.5 then x * sqrt x
  else 1.
Definition cos (x : float) : float :=
  1 - x * x / 2 + x * x * x * x / 24 - x * x * x * x * x * x / 720.
Definition sin (x : float) : float :=
  x - x * x * x / 6 + x * x * x * x * x / 120.
Definition arctan (z : float) : float := z / (1 + 0.28 * z * z).
Definition arctan2 (y x : float) : float :=
  if abs y <=? abs x then
    if x =? 0 then 0
    else if 0 <=? x then arctan (y / x)
    else if 0 <=? y then arctan (y / x) + pi
    else arctan (y / x) - pi
  else if 0 <=? y then pi / 2 - arctan (x / y)
  else - pi / 2 - arctan (x / y).
Definition deg2rad (d : float) : float := d * (pi / 180).

Definition externals : Externals float := {|
  Atmosphere := fun _ => (288.15, 1.225);
  np_sqrt := sqrt;
  np_cos := cos;
  np_sin := sin;
  np_arctan2 := arctan2;
  np_deg2rad := deg2rad;
  np_power := power
|}.

(** The two stages of [main], as the constructor builds them. *)
Definition stage (name : string) (thrust isp ms mf mp : float)
  : Stage.t float :=
  Stage.mk name thrust 0.3 10.75 isp ms mf mp
           (thrust / (isp * 9.81)) (mf / (thrust / (isp * 9.81)))
           (ms + mf + mp).
Definition F9S1 : Stage.t float := stage "Stage 1" 7426e3 282 27.2e3 411e3 116e3.
Definition F9S2 : Stage.t float := stage "Stage 2" 934e3 348 4.5e3 111.5e3 0.
End Sample64.

(** * Properties *)

(** In a statement about the rationals the operations of [exact] are
    those of [Q]. *)
Ltac exact_arith :=
  cbv beta iota delta
    [lit add sub mul div neg pow leb ltb is_zero np_arange_len exact] in *.

(** ** Comparisons of rationals *)

Lemma Qlt_bool_iff (x y : Q) : Qlt_bool x y = true <-> x < y.
Proof. unfold Qlt_bool, Qlt. apply Z.ltb_lt. Qed.

Lemma Qlt_bool_negb (x y : Q) : Qlt_bool x y = negb (Qle_bool y x).
Proof.
  destruct (Qle_bool y x) eqn:E; simpl.
  - apply Qle_bool_iff in E. apply not_true_is_false.
    rewrite Qlt_bool_iff. lra.
  - apply Qlt_bool_iff. destruct (Qlt_le_dec x y) as [L | L]; [exact L |].
    apply Qle_bool_iff in L. congruence.
Qed.

Lemma Qle_bool_false (x y : Q) : Qle_bool x y = false <-> y < x.
Proof.
  rewrite <- Qlt_bool_iff, Qlt_bool_negb.
  destruct (Qle_bool x y); simpl; intuition congruence.
Qed.

Lemma Qeq_bool_false (x y : Q) : Qeq_bool x y = false <-> ~ x == y.
Proof.
  split; [apply Qeq_bool_neq |].
  intros N. destruct (Qeq_bool x y) eqn:E; [| reflexivity].
  apply Qeq_bool_iff in E. contradiction.
Qed.

(** ** The monad *)

Lemma bind_Ok {A B} (m : Py A) (f : A -> Py B) (out : list string) (a : A) :
  m = mkPy out (Ok a) ->
  m ≫= f = mkPy (out ++ stdout (f a)) (result (f a)).
Proof. intros ->. reflexivity. Qed.

Lemma bind_ret {A B} (a : A) (f : A -> Py B) : mret a ≫= f = f a.
Proof. destruct (f a) eqn:E. unfold mbind, Py_bind. simpl. now rewrite E. Qed.

Lemma bind_Raise {A B} (m : Py A) (f : A -> Py B) out e :
  m = mkPy out (Raise e) -> m ≫= f = mkPy out (Raise e).
Proof. intros ->. reflexivity. Qed.

Lemma bind_ext {A B} (m : Py A) (f g : A -> Py B) :
  (forall a, f a = g a) -> m ≫= f = m ≫= g.
Proof.
  intros E. unfold mbind, Py_bind. destruct (result m); [| reflexivity..].
  now rewrite E.
Qed.

Lemma result_bind {A B} (m : Py A) (f : A -> Py B) :
  result (m ≫= f) =
  match result m with
  | Ok a => result (f a)
  | Raise e => Raise e
  | Diverged => Diverged
  end.
Proof. unfold mbind, Py_bind. now destruct (result m). Qed.

Lemma stdout_bind {A B} (m : Py A) (f : A -> Py B) :
  stdout (m ≫= f) =
  match result m with
  | Ok a => stdout m ++ stdout (f a)
  | _ => stdout m
  end.
Proof. unfold mbind, Py_bind. now destruct (result m). Qed.

Lemma Py_eta {A} (p : Py A) : mkPy (stdout p) (result p) = p.
Proof. now destruct p. Qed.

Lemma getitem_Some {A} (l : list A) (i : nat) (a : A) :
  l !! i = Some a -> getitem l i = mret a.
Proof. unfold getitem. now intros ->. Qed.

Lemma setitem_lt {A} (l : list A) (i : nat) (v : A) :
  (i < length l)%nat -> setitem l i v = mret (<[i:=v]> l).
Proof. unfold setitem. intros L. now rewrite decide_True. Qed.

Lemma setitem_ge {A} (l : list A) (i : nat) (v : A) :
  (length l <= i)%nat -> setitem l i v = raise IndexError.
Proof. unfold setitem. intros L. rewrite decide_False; [reflexivity | lia]. Qed.

Lemma py_div_nonzero (x y : Q) : ~ y == 0 -> py_div x y = mret (x / y).
Proof.
  intros N. unfold py_div. exact_arith. apply Qeq_bool_false in N.
  now rewrite N.
Qed.

Lemma py_div_zero (x y : Q) : y == 0 -> py_div x y = raise ZeroDivisionError.
Proof.
  intros E. unfold py_div. exact_arith. apply Qeq_bool_iff in E.
  now rewrite E.
Qed.

(** ** The drag coefficient *)

(** In exact arithmetic a branch of the chain is always taken, and the
    chain is the four-regime function. *)
Lemma Cd_of_Mach_piecewise (M : Q) :
  Stage.Cd_of_Mach M = Some (Cd_piecewise M).
Proof.
  unfold Stage.Cd_of_Mach, Cd_piecewise. exact_arith.
  rewrite !Qlt_bool_negb.
  destruct (Qle_bool M 1.25) eqn:E1; [reflexivity |].
  destruct (Qle_bool M 4) eqn:E4; [reflexivity |].
  destruct (Qle_bool M 10) eqn:E10; reflexivity.
Qed.

(** The drag coefficient just beyond the last breakpoint is the constant,
    at it the cubic. *)
Lemma Cd_piecewise_top (M : Q) : 10 < M -> Cd_piecewise M = Stage.Cd_top.
Proof.
  intros L. unfold Cd_piecewise.
  assert (E1 : Qle_bool M 1.25 = false) by (apply Qle_bool_false; lra).
  assert (E4 : Qle_bool M 4 = false) by (apply Qle_bool_false; lra).
  assert (E10 : Qle_bool M 10 = false) by (apply Qle_bool_false; lra).
  now rewrite E1, E4, E10.
Qed.

Lemma Cd_gap_low_mid :
  Qabs (Stage.Cd_low 1.25 - Stage.Cd_mid 1.25) == 0.00035546875.
Proof. vm_compute. reflexivity. Qed.

Lemma Cd_gap_mid_high : Qabs (Stage.Cd_mid 4 - Stage.Cd_high 4) == 0.0175.
Proof. vm_compute. reflexivity. Qed.

Lemma Cd_gap_high_top : Qabs (Stage.Cd_high 10 - Stage.Cd_top) == 0.1368.
Proof. vm_compute. reflexivity. Qed.

(** ** Construction of a stage *)

Lemma Qdiv_zero_iff (x y : Q) : ~ y == 0 -> (x / y == 0 <-> x == 0).
Proof.
  intros N. split; intros E.
  - assert (E' : x == x / y * y) by (field; exact N).
    rewrite E', E. ring.
  - rewrite E. field. exact N.
Qed.

(** How [Stage.__init__] ends, whatever the arithmetic: it fails at a zero
    divisor, and only there. *)
Lemma init_unfold {num} `{Arith num} (Name : string)
    (T Cd A I Ms Mf Mp : num) :
  Stage.init Name T Cd A I Ms Mf Mp =
  if is_zero (mul I (lit 9.81)) then raise ZeroDivisionError
  else if is_zero (div T (mul I (lit 9.81))) then raise ZeroDivisionError
  else mret (Stage.mk Name T Cd A I Ms Mf Mp (div T (mul I (lit 9.81)))
               (div Mf (div T (mul I (lit 9.81))))
               (add (add Ms Mf) Mp)).
Proof.
  unfold Stage.init, py_div.
  destruct (is_zero (mul I (lit 9.81))); [reflexivity |].
  rewrite bind_ret.
  destruct (is_zero (div T (mul I (lit 9.81)))); [reflexivity |].
  now rewrite bind_ret.
Qed.

(** In exact arithmetic, by cases on specific impulse and thrust. *)
Lemma init_cases (Name : string) (T Cd A I Ms Mf Mp : Q) :
  Stage.init Name T Cd A I Ms Mf Mp =
  if Qeq_bool I 0 || Qeq_bool T 0 then raise ZeroDivisionError
  else mret (Stage.mk Name T Cd A I Ms Mf Mp (T / (I * 9.81))
               (Mf / (T / (I * 9.81))) (Ms + Mf + Mp)).
Proof.
  rewrite init_unfold. exact_arith.
  destruct (Qeq_bool I 0) eqn:EI; simpl.
  - apply Qeq_bool_iff in EI.
    assert (E : Qeq_bool (I * 9.81) 0 = true)
      by (apply Qeq_bool_iff; rewrite EI; ring).
    now rewrite E.
  - apply Qeq_bool_false in EI.
    assert (NI : ~ I * 9.81 == 0) by (intros E; apply EI; lra).
    assert (E : Qeq_bool (I * 9.81) 0 = false) by now apply Qeq_bool_false.
    rewrite E.
    destruct (Qeq_bool T 0) eqn:ET.
    + apply Qeq_bool_iff in ET.
      assert (E' : Qeq_bool (T / (I * 9.81)) 0 = true)
        by (apply Qeq_bool_iff, Qdiv_zero_iff; assumption).
      now rewrite E'.
    + apply Qeq_bool_false in ET.
      assert (E' : Qeq_bool (T / (I * 9.81)) 0 = false).
      { apply Qeq_bool_false. intros Z. apply ET.
        now apply (Qdiv_zero_iff T (I * 9.81)). }
      now rewrite E'.
Qed.

(** ** Drag *)

Section GetDrag_facts.
Context {EX : Externals Q}.

(** In exact arithmetic [GetDrag] always returns, and what. *)
Lemma GetDrag_eq (self : Stage.t Q) (h V vx vy : Q) :
  Stage.GetDrag self h V vx vy =
  mret (0.5 * (Atmosphere h).2 * vx * V * Stage.A self *
          Cd_piecewise (V / np_sqrt (1.14 * 287 * (Atmosphere h).1)),
        0.5 * (Atmosphere h).2 * vy * V * Stage.A self *
          Cd_piecewise (V / np_sqrt (1.14 * 287 * (Atmosphere h).1))).
Proof.
  unfold Stage.GetDrag. destruct (Atmosphere h) as [T rho]. simpl.
  exact_arith. rewrite Cd_of_Mach_piecewise. reflexivity.
Qed.
End GetDrag_facts.

(** ** The equations of motion *)

Section EqOfM_facts.
Context {EX : Externals Q}.

Lemma mass_and_thrust_eq (t : Q) (s1 s2 : Stage.t Q) :
  mass_and_thrust t s1 s2 = (Some (active_mass t s1 s2), active_thrust t s1 s2).
Proof.
  unfold mass_and_thrust, active_mass, active_thrust. exact_arith.
  rewrite Qlt_bool_negb. destruct (Qle_bool t (Stage.tb s1)); reflexivity.
Qed.

Lemma thrust_angle_eq (t : Q) (s1 : Stage.t Q) (h phi : Q) :
  thrust_angle t s1 h phi = gravity_turn_angle t s1 h phi.
Proof.
  unfold thrust_angle, gravity_turn_angle. exact_arith.
  destruct (Qlt_bool t (Stage.tb s1 + 300)); [| reflexivity].
  destruct (Qlt_bool 100 h); [| reflexivity]. simpl.
  rewrite (Qlt_bool_negb (np_deg2rad 83) phi).
  destruct (Qle_bool phi (np_deg2rad 83)); reflexivity.
Qed.

(** [EqOfM] on a list of two stages or more, in exact arithmetic: it
    returns, having printed the notice or nothing. *)
Lemma EqOfM_eq (s : State.t Q) (t : Q) (s1 s2 : Stage.t Q)
    (rest : list (Stage.t Q)) :
  EqOfM s t (s1 :: s2 :: rest) =
  mkPy (notices s t) (Ok (motion (Stage.A s1) s t s1 s2)).
Proof.
  unfold EqOfM. cbn [getitem lookup list_lookup].
  rewrite !bind_ret, mass_and_thrust_eq, thrust_angle_eq, GetDrag_eq.
  rewrite bind_ret. cbn [local]. rewrite bind_ret.
  unfold notices, motion, altitude, drag_force, speed, flight_path, gravity.
  exact_arith.
  destruct (Qlt_bool 0 t); [| reflexivity].
  destruct (Qle_bool _ 0); reflexivity.
Qed.
End EqOfM_facts.

(** ** Lists given by their entries *)

Lemma length_tabulate {A} (n : nat) (f : nat -> A) : length (tabulate n f) = n.
Proof. unfold tabulate. now rewrite length_fmap, length_seq. Qed.

Lemma lookup_tabulate {A} (n : nat) (f : nat -> A) (i : nat) :
  (i < n)%nat -> tabulate n f !! i = Some (f i).
Proof.
  intros L. unfold tabulate.
  now rewrite list_lookup_fmap, lookup_seq_lt.
Qed.

Lemma tabulate_ext {A} (n : nat) (f g : nat -> A) :
  (forall i, (i < n)%nat -> f i = g i) -> tabulate n f = tabulate n g.
Proof.
  intros E. apply list_eq. intros i.
  destruct (decide (i < n)%nat) as [L | L].
  - rewrite !lookup_tabulate by exact L. now rewrite E.
  - rewrite !lookup_ge_None_2; [reflexivity | |]; rewrite length_tabulate; lia.
Qed.

Lemma insert_tabulate {A} (n : nat) (f : nat -> A) (k : nat) (v : A) :
  <[k:=v]> (tabulate n f) = tabulate n (fun i => if decide (i = k) then v else f i).
Proof.
  apply list_eq. intros i.
  rewrite list_lookup_insert, length_tabulate.
  destruct (decide (i < n)%nat) as [L | L].
  - rewrite !lookup_tabulate by exact L.
    destruct (decide (i = k)) as [-> | N].
    + now rewrite decide_True.
    + rewrite decide_False; [reflexivity | intros [-> _]; contradiction].
  - rewrite !lookup_ge_None_2 by (rewrite length_tabulate; lia).
    rewrite decide_False; [reflexivity | intros [-> ?]; lia].
Qed.

Lemma getitem_tabulate {A} (n : nat) (f : nat -> A) (i : nat) :
  (i < n)%nat -> getitem (tabulate n f) i = mret (f i).
Proof. intros L. apply getitem_Some, lookup_tabulate, L. Qed.

Lemma replicate_tabulate {A} (n : nat) (x : A) :
  replicate n x = tabulate n (fun _ => x).
Proof.
  apply list_eq. intros i.
  destruct (decide (i < n)%nat) as [L | L].
  - now rewrite lookup_replicate_2, lookup_tabulate.
  - rewrite !lookup_ge_None_2; [reflexivity | |];
      rewrite ?length_tabulate, ?length_replicate; lia.
Qed.

(** ** The loop of the integrator, whatever the arithmetic *)

Lemma state_eta {num} (s : State.t num) :
  State.mk (State.rx s) (State.ry s) (State.vx s) (State.vy s) = s.
Proof. now destruct s. Qed.

Section loop_facts.
Context {num : Type} {AR : Arith num} {EX : Externals num}.

(** [EqOfM] prints the altitude notice at most, once. *)
Lemma EqOfM_stdout (s : State.t num) (t : num) (stages : list (Stage.t num)) :
  stdout (EqOfM s t stages) = [] \/ stdout (EqOfM s t stages) = [altitude_notice].
Proof.
  unfold EqOfM.
  destruct stages as [| s1 [| s2 rest]]; [now left.. |].
  cbn [getitem lookup list_lookup]. rewrite !bind_ret.
  destruct (mass_and_thrust t s1 s2) as [m TT].
  unfold Stage.GetDrag. destruct (Atmosphere _) as [T rho].
  destruct (Stage.Cd_of_Mach _) as [Cd |]; [| now left].
  cbn [local]. rewrite !bind_ret.
  destruct m as [m |]; [| now left].
  cbn [local]. rewrite bind_ret.
  destruct (ltb (lit 0) t); [| now left].
  destruct (leb _ (lit 0)); [now right | now left].
Qed.

Lemma EqOfM_ends (s : State.t num) (t : num) (stages : list (Stage.t num)) :
  result (EqOfM s t stages) <> Diverged.
Proof.
  unfold EqOfM.
  destruct stages as [| s1 [| s2 rest]]; [discriminate.. |].
  cbn [getitem lookup list_lookup]. rewrite !bind_ret.
  destruct (mass_and_thrust t s1 s2) as [m TT].
  unfold Stage.GetDrag. destruct (Atmosphere _) as [T rho].
  destruct (Stage.Cd_of_Mach _) as [Cd |]; [| discriminate].
  cbn [local]. rewrite !bind_ret.
  destruct m as [m |]; [| discriminate].
  cbn [local]. rewrite bind_ret.
  destruct (ltb (lit 0) t); [| discriminate].
  destruct (leb _ (lit 0)); discriminate.
Qed.

Variables (STATE0 : State.t num) (t0 dt Tf : num).
Variable stages : list (Stage.t num).

#[local] Abbreviation st := (state_at STATE0 t0 dt stages).
#[local] Abbreviation tm := (time_of t0 dt).
#[local] Abbreviation arr := (arrays_at STATE0 t0 dt stages).
#[local] Abbreviation run k := (EqOfM (st k) (tm k) stages).

Lemma state_at_S (k : nat) (r : State.t num * Diag.t num) :
  result (run k) = Ok r -> st (S k) = euler_step dt (st k) r.1.
Proof. intros E. cbn [state_at]. unfold EqOfM_value. now rewrite E. Qed.

Lemma diag_at_eq (k : nat) (r : State.t num * Diag.t num) :
  result (run k) = Ok r -> diag_at STATE0 t0 dt stages k = r.2.
Proof. intros E. unfold diag_at, EqOfM_value. now rewrite E. Qed.

Lemma euler_alloc_eq (steps : nat) :
  euler_alloc STATE0 steps = mret (arr steps 0%nat).
Proof.
  unfold euler_alloc, np_zeros, np_zeros6.
  rewrite !setitem_lt by (rewrite length_replicate; lia).
  rewrite !bind_ret. unfold arrays_at.
  rewrite !replicate_tabulate, !insert_tabulate.
  do 2 f_equal; apply tabulate_ext; intros i Li;
    repeat case_decide; try lia; subst; reflexivity.
Qed.

(** The loop leaves when its test fails. *)
Lemma euler_loop_exit (fuel steps k : nat) :
  ltb (tm k) Tf = false ->
  euler_loop fuel dt Tf stages (tm k) k (arr steps k) =
  mret (tm k, k, arr steps k).
Proof. intros T. destruct fuel; cbn [euler_loop]; now rewrite T. Qed.

(** A pass reads row [k] and calls [EqOfM] before it writes. *)
Lemma euler_loop_call (fuel steps k : nat) :
  (k <= steps)%nat -> ltb (tm k) Tf = true ->
  euler_loop (S fuel) dt Tf stages (tm k) k (arr steps k) =
  (S ← run k;
   X' ← setitem (X (arr steps k)) (k + 1)
          (add (State.rx (st k)) (mul dt (State.rx S.1)));
   Y' ← setitem (Y (arr steps k)) (k + 1)
          (add (State.ry (st k)) (mul dt (State.ry S.1)));
   Vx' ← setitem (Vx (arr steps k)) (k + 1)
          (add (State.vx (st k)) (mul dt (State.vx S.1)));
   Vy' ← setitem (Vy (arr steps k)) (k + 1)
          (add (State.vy (st k)) (mul dt (State.vy S.1)));
   v_states' ← setitem (v_states (arr steps k)) k S.2;
   T_array' ← setitem (T_array (arr steps k)) (k + 1) (add (tm k) dt);
   euler_loop fuel dt Tf stages (add (tm k) dt) (k + 1)
     (mkArrays X' Y' Vx' Vy' T_array' v_states')).
Proof.
  intros Lk Ht. cbn [euler_loop]. rewrite Ht.
  rewrite (getitem_Some (X _) k (State.rx (st k))),
    (getitem_Some (Y _) k (State.ry (st k))),
    (getitem_Some (Vx _) k (State.vx (st k))),
    (getitem_Some (Vy _) k (State.vy (st k)));
    try (unfold arrays_at; cbn [X Y Vx Vy];
         rewrite lookup_tabulate by lia; now rewrite decide_True by lia).
  rewrite !bind_ret. now rewrite state_eta.
Qed.

(** An exception of [EqOfM] ends the run. *)
Lemma euler_loop_raise (fuel steps k : nat) (e : exn) :
  (k <= steps)%nat -> ltb (tm k) Tf = true ->
  result (run k) = Raise e ->
  euler_loop (S fuel) dt Tf stages (tm k) k (arr steps k) =
  mkPy (stdout (run k)) (Raise e).
Proof.
  intros Lk Ht E. rewrite euler_loop_call by assumption.
  unfold mbind, Py_bind. now rewrite E.
Qed.

(** A pass beyond the last row raises, after the call of [EqOfM]. *)
Lemma euler_loop_overrun (fuel steps : nat) (r : State.t num * Diag.t num) :
  ltb (tm steps) Tf = true ->
  result (run steps) = Ok r ->
  euler_loop (S fuel) dt Tf stages (tm steps) steps (arr steps steps) =
  mkPy (stdout (run steps)) (Raise IndexError).
Proof.
  intros Ht E. rewrite euler_loop_call by (lia || assumption).
  rewrite (bind_Ok (run steps) _ (stdout (run steps)) r)
    by (rewrite <- E; symmetry; apply Py_eta).
  rewrite (setitem_ge (X _))
    by (unfold arrays_at; cbn [X]; rewrite length_tabulate; lia).
  cbn. now rewrite app_nil_r.
Qed.

Lemma setitem_next {A} (n k : nat) (f g : nat -> A) (v : A) :
  (k < n)%nat -> v = g k ->
  (forall i, (i < n)%nat -> i <> k -> f i = g i) ->
  setitem (tabulate n f) k v = mret (tabulate n g).
Proof.
  intros L Ev E. rewrite setitem_lt by (rewrite length_tabulate; lia).
  rewrite insert_tabulate. f_equal. apply tabulate_ext. intros i Li.
  case_decide; [now subst | now apply E].
Qed.

(** A pass within the rows writes row [k + 1] and goes on. *)
Lemma euler_loop_pass (fuel steps k : nat) (r : State.t num * Diag.t num) :
  (k < steps)%nat -> ltb (tm k) Tf = true ->
  result (run k) = Ok r ->
  euler_loop (S fuel) dt Tf stages (tm k) k (arr steps k) =
  (_ ← mkPy (stdout (run k)) (Ok tt);
   euler_loop fuel dt Tf stages (tm (S k)) (k + 1) (arr steps (S k))).
Proof.
  intros Lk Ht E. rewrite euler_loop_call by (lia || assumption).
  rewrite (bind_Ok (run k) _ (stdout (run k)) r)
    by (rewrite <- E; symmetry; apply Py_eta).
  pose proof (state_at_S _ _ E) as ES. pose proof (diag_at_eq _ _ E) as ED.
  unfold arrays_at. cbn [X Y Vx Vy T_array v_states].
  rewrite (setitem_next _ _ _
             (fun i => if decide (i <= S k)%nat then State.rx (st i) else lit 0)
             (add (State.rx (st k)) (mul dt (State.rx r.1))));
    [| lia | rewrite decide_True, Nat.add_1_r, ES by lia; reflexivity
     | intros; repeat case_decide; try lia; reflexivity].
  rewrite bind_ret.
  rewrite (setitem_next _ _ _
             (fun i => if decide (i <= S k)%nat then State.ry (st i) else lit 0)
             (add (State.ry (st k)) (mul dt (State.ry r.1))));
    [| lia | rewrite decide_True, Nat.add_1_r, ES by lia; reflexivity
     | intros; repeat case_decide; try lia; reflexivity].
  rewrite bind_ret.
  rewrite (setitem_next _ _ _
             (fun i => if decide (i <= S k)%nat then State.vx (st i) else lit 0)
             (add (State.vx (st k)) (mul dt (State.vx r.1))));
    [| lia | rewrite decide_True, Nat.add_1_r, ES by lia; reflexivity
     | intros; repeat case_decide; try lia; reflexivity].
  rewrite bind_ret.
  rewrite (setitem_next _ _ _
             (fun i => if decide (i <= S k)%nat then State.vy (st i) else lit 0)
             (add (State.vy (st k)) (mul dt (State.vy r.1))));
    [| lia | rewrite decide_True, Nat.add_1_r, ES by lia; reflexivity
     | intros; repeat case_decide; try lia; reflexivity].
  rewrite bind_ret.
  rewrite (setitem_next _ _ _
             (fun i => if decide (i < S k)%nat
                       then diag_at STATE0 t0 dt stages i else Diag.zeros)
             r.2);
    [| lia | rewrite decide_True, ED by lia; reflexivity
     | intros; repeat case_decide; try lia; reflexivity].
  rewrite bind_ret.
  rewrite (setitem_next _ _ _
             (fun i => if decide (1 <= i <= S k)%nat then tm i else lit 0)
             (add (tm k) dt));
    [| lia | rewrite decide_True, Nat.add_1_r by lia; reflexivity
     | intros; repeat case_decide; try lia; reflexivity].
  rewrite bind_ret. reflexivity.
Qed.
End loop_facts.

(** ** Runs, whatever the arithmetic *)

Section run_facts.
Context {num : Type} {AR : Arith num} {EX : Externals num}.
Variables (STATE0 : State.t num) (t0 dt Tf : num).
Variable stages : list (Stage.t num).

#[local] Abbreviation st := (state_at STATE0 t0 dt stages).
#[local] Abbreviation tm := (time_of t0 dt).
#[local] Abbreviation arr := (arrays_at STATE0 t0 dt stages).
#[local] Abbreviation run k := (EqOfM (st k) (tm k) stages).

(** A loop that returns has made the passes for which its test held, all
    of them within the rows, and each with a call of [EqOfM] that
    returned. *)
Lemma euler_loop_returns (steps fuel : nat) :
  forall (k : nat) (out : list string) (t : num) (n : nat) (a : Arrays num),
    (k <= steps)%nat ->
    euler_loop fuel dt Tf stages (tm k) k (arr steps k) = mkPy out (Ok (t, n, a)) ->
    (k <= n <= steps)%nat /\ t = tm n /\ a = arr steps n /\
    ltb (tm n) Tf = false /\
    (forall i, (k <= i < n)%nat ->
       ltb (tm i) Tf = true /\ exists r, result (run i) = Ok r) /\
    out = printed STATE0 t0 dt stages k (n - k).
Proof.
  induction fuel as [| fuel IH]; intros k out t n a Lk R.
  - cbn [euler_loop] in R. destruct (ltb (tm k) Tf) eqn:T; [discriminate |].
    injection R as <- <- <- <-. rewrite Nat.sub_diag.
    repeat split; try lia; try assumption; intros; lia.
  - destruct (ltb (tm k) Tf) eqn:T.
    + destruct (result (run k)) as [r | e |] eqn:E.
      * destruct (decide (k < steps)%nat) as [L | L].
        -- rewrite (euler_loop_pass _ _ _ _ _ _ _ _ r) in R by assumption.
           unfold mbind, Py_bind in R. cbn [result stdout] in R. cbv zeta in R.
           rewrite Nat.add_1_r in R.
           destruct (euler_loop fuel dt Tf stages (tm (S k)) (S k)
                       (arr steps (S k))) as [out' res'] eqn:R'.
           cbn [stdout result] in R. injection R as <- ->.
           destruct (IH (S k) out' t n a ltac:(lia) R')
             as (Ln & Et & Ea & Tn & P & Eo).
           split; [lia |]. split; [exact Et |]. split; [exact Ea |].
           split; [exact Tn |]. split.
           ++ intros i Li. destruct (decide (i = k)) as [-> | N].
              ** split; [exact T | now exists r].
              ** apply P. lia.
           ++ rewrite Eo. replace (n - k)%nat with (S (n - S k)) by lia.
              reflexivity.
        -- assert (k = steps) as -> by lia.
           rewrite (euler_loop_overrun _ _ _ _ _ _ _ r) in R by assumption.
           discriminate.
      * rewrite (euler_loop_raise _ _ _ _ _ _ _ _ e) in R by assumption.
        discriminate.
      * now destruct (EqOfM_ends (st k) (tm k) stages).
    + rewrite euler_loop_exit in R by assumption.
      injection R as <- <- <- <-. rewrite Nat.sub_diag.
      repeat split; try lia; try assumption; intros; lia.
Qed.

(** The loop ends: a pass beyond the rows raises, so the fuel of [euler]
    is never used up. *)
Lemma euler_loop_ends (steps fuel : nat) :
  forall k : nat,
    (k <= steps)%nat -> (steps - k < fuel)%nat ->
    result (euler_loop fuel dt Tf stages (tm k) k (arr steps k)) <> Diverged.
Proof.
  induction fuel as [| fuel IH]; intros k Lk F; [lia |].
  destruct (ltb (tm k) Tf) eqn:T.
  - destruct (result (run k)) as [r | e |] eqn:E.
    + destruct (decide (k < steps)%nat) as [L | L].
      * rewrite (euler_loop_pass _ _ _ _ _ _ _ _ r) by assumption.
        rewrite result_bind. cbn [result]. rewrite Nat.add_1_r.
        apply IH; lia.
      * assert (k = steps) as -> by lia.
        rewrite (euler_loop_overrun _ _ _ _ _ _ _ r) by assumption.
        discriminate.
    + rewrite (euler_loop_raise _ _ _ _ _ _ _ _ e) by assumption.
      discriminate.
    + now destruct (EqOfM_ends (st k) (tm k) stages).
  - rewrite euler_loop_exit by assumption. discriminate.
Qed.

(** What the loop prints is what the calls of [EqOfM] print. *)
Lemma euler_loop_stdout (steps fuel : nat) :
  forall k : nat,
    (k <= steps)%nat ->
    exists m : nat,
      (k + m <= steps + 1)%nat /\
      stdout (euler_loop fuel dt Tf stages (tm k) k (arr steps k)) =
      printed STATE0 t0 dt stages k m.
Proof.
  induction fuel as [| fuel IH]; intros k Lk.
  - exists 0%nat. split; [lia |]. cbn [euler_loop].
    now destruct (ltb (tm k) Tf).
  - destruct (ltb (tm k) Tf) eqn:T.
    + destruct (result (run k)) as [r | e |] eqn:E.
      * destruct (decide (k < steps)%nat) as [L | L].
        -- rewrite (euler_loop_pass _ _ _ _ _ _ _ _ r) by assumption.
           rewrite stdout_bind. cbn [result stdout]. cbv beta.
           rewrite (Nat.add_1_r k).
           destruct (IH (S k) ltac:(lia)) as (m & Lm & ->).
           exists (S m). split; [lia | reflexivity].
        -- assert (k = steps) as -> by lia.
           rewrite (euler_loop_overrun _ _ _ _ _ _ _ r) by assumption.
           exists 1%nat. split; [lia |]. cbn. now rewrite app_nil_r.
      * rewrite (euler_loop_raise _ _ _ _ _ _ _ _ e) by assumption.
        exists 1%nat. split; [lia |]. cbn. now rewrite app_nil_r.
      * now destruct (EqOfM_ends (st k) (tm k) stages).
    + rewrite euler_loop_exit by assumption. exists 0%nat. split; [lia | reflexivity].
Qed.

Lemma euler_run_unfold (steps : nat) :
  np_arange_len t0 Tf dt = inr steps ->
  euler_run STATE0 t0 dt Tf stages =
  euler_loop (steps + 1) dt Tf stages t0 0%nat (arr steps 0%nat).
Proof.
  intros E. unfold euler_run, arange_len. rewrite E, bind_ret.
  now rewrite (euler_alloc_eq STATE0 t0 dt stages), bind_ret.
Qed.

Lemma euler_arange_raises (e : exn) :
  np_arange_len t0 Tf dt = inl e ->
  euler STATE0 t0 dt Tf stages = raise e.
Proof.
  intros E. unfold euler, euler_run, arange_len. now rewrite E.
Qed.

(** A run that returns: [n] passes, all within the [steps] allocated. *)
Lemma euler_returns (STATEF : list (TableRow.t num)) (V : list (Diag.t num)) :
  result (euler STATE0 t0 dt Tf stages) = Ok (STATEF, V) ->
  exists steps n : nat,
    np_arange_len t0 Tf dt = inr steps /\
    result (euler_run STATE0 t0 dt Tf stages) = Ok (tm n, n, arr steps n) /\
    (n <= steps)%nat /\ passes t0 dt Tf n /\
    (forall i, (i < n)%nat -> exists r, result (run i) = Ok r) /\
    STATEF = STATEF_of (arr steps n) /\ V = v_states (arr steps n) /\
    stdout (euler STATE0 t0 dt Tf stages) = printed STATE0 t0 dt stages 0 n.
Proof.
  intros R. destruct (np_arange_len t0 Tf dt) as [e | steps] eqn:EA.
  { rewrite (euler_arange_raises e EA) in R. discriminate. }
  exists steps. unfold euler in *. rewrite result_bind in R.
  rewrite stdout_bind.
  destruct (euler_run STATE0 t0 dt Tf stages) as [out [[[t n] a] | e |]] eqn:ER;
    cbn [result stdout] in *; try discriminate.
  injection R as <- <-.
  rewrite (euler_run_unfold steps EA) in ER.
  destruct (euler_loop_returns steps _ 0%nat out t n a ltac:(lia) ER)
    as (Ln & -> & -> & Tn & P & Eo).
  exists n. split; [reflexivity |]. split; [reflexivity |]. split; [lia |].
  split; [split; [intros i Li; apply P; lia | exact Tn] |].
  split; [intros i Li; apply P; lia |].
  split; [reflexivity |]. split; [reflexivity |].
  rewrite Eo, Nat.sub_0_r. cbn. apply app_nil_r.
Qed.

(** Row [i] of the tables after [n] passes. *)
Lemma STATEF_lookup (steps n i : nat) :
  (i <= steps)%nat ->
  STATEF_of (arr steps n) !! i =
  Some (TableRow.mk (if decide (1 <= i <= n)%nat then tm i else lit 0)
          (if decide (i <= n)%nat then State.rx (st i) else lit 0)
          (if decide (i <= n)%nat then State.ry (st i) else lit 0)
          (if decide (i <= n)%nat then State.vx (st i) else lit 0)
          (if decide (i <= n)%nat then State.vy (st i) else lit 0)).
Proof.
  intros L. unfold STATEF_of, arrays_at. cbn [X Y Vx Vy T_array].
  rewrite !lookup_zip_with.
  rewrite !lookup_tabulate by lia. reflexivity.
Qed.

Lemma STATEF_length (steps n : nat) :
  length (STATEF_of (arr steps n)) = (steps + 1)%nat.
Proof.
  unfold STATEF_of, arrays_at. cbn [X Y Vx Vy T_array].
  rewrite !length_zip_with, !length_tabulate. lia.
Qed.

Lemma v_states_lookup (steps n i : nat) :
  (i <= steps)%nat ->
  v_states (arr steps n) !! i =
  Some (if decide (i < n)%nat then diag_at STATE0 t0 dt stages i
        else Diag.zeros).
Proof.
  intros L. unfold arrays_at. cbn [v_states].
  now rewrite lookup_tabulate by lia.
Qed.

Lemma v_states_length (steps n : nat) :
  length (v_states (arr steps n)) = (steps + 1)%nat.
Proof. unfold arrays_at. cbn [v_states]. apply length_tabulate. Qed.
End run_facts.

(** ** The equations of motion, whatever the arithmetic *)

Section EqOfM_cases.
Context {num : Type} {AR : Arith num} {EX : Externals num}.

Lemma GetDrag_unfold (self : Stage.t num) (h V vx vy : num) :
  Stage.GetDrag self h V vx vy =
  match Stage.Cd_of_Mach (Mach h V) with
  | Some Cd => mret (drag_with (Stage.A self) h V vx vy Cd)
  | None => raise UnboundLocalError
  end.
Proof.
  unfold Stage.GetDrag, Mach, drag_with. destruct (Atmosphere h) as [T rho].
  cbn [fst snd]. destruct (Stage.Cd_of_Mach _); [| reflexivity].
  cbn [local]. now rewrite bind_ret.
Qed.

(** [EqOfM] on a list of two stages or more: it raises where its chains
    leave [Cd] or [M] unbound; otherwise it returns, and what it returns
    does not depend on the altitude check, which prints or not. *)
Lemma EqOfM_cases (s : State.t num) (t : num) (s1 s2 : Stage.t num)
    (rest : list (Stage.t num)) :
  EqOfM s t (s1 :: s2 :: rest) =
  match Stage.Cd_of_Mach (Mach (altitude s) (speed s)),
        (mass_and_thrust t s1 s2).1 with
  | Some Cd, Some m =>
      mkPy (notices s t)
        (Ok (motion_of s t s1 m (mass_and_thrust t s1 s2).2
               (drag_with (Stage.A s1) (altitude s) (speed s)
                  (State.vx s) (State.vy s) Cd)))
  | _, _ => raise UnboundLocalError
  end.
Proof.
  unfold EqOfM. cbn [getitem lookup list_lookup]. rewrite !bind_ret.
  destruct (mass_and_thrust t s1 s2) as [m TT]. cbn [fst snd].
  rewrite GetDrag_unfold. fold (altitude s) (speed s).
  destruct (Stage.Cd_of_Mach _) as [Cd |]; [| now destruct m].
  rewrite bind_ret. destruct m as [m |]; [| reflexivity].
  cbn [local]. rewrite bind_ret.
  unfold notices, motion_of, flight_path, gravity. fold (altitude s).
  destruct (ltb (lit 0) t); [| reflexivity].
  destruct (leb (altitude s) (lit 0)); reflexivity.
Qed.

Lemma EqOfM_short (s : State.t num) (t : num) (stages : list (Stage.t num)) :
  (length stages < 2)%nat -> EqOfM s t stages = raise IndexError.
Proof.
  intros L. destruct stages as [| s1 [| s2 rest]]; [reflexivity.. |].
  cbn in L. lia.
Qed.

(** The exceptions of [EqOfM]. *)
Lemma EqOfM_raises (s : State.t num) (t : num) (stages : list (Stage.t num))
    (e : exn) :
  result (EqOfM s t stages) = Raise e -> e = IndexError \/ e = UnboundLocalError.
Proof.
  destruct stages as [| s1 [| s2 rest]].
  - rewrite EqOfM_short by (cbn; lia). intros [= <-]. now left.
  - rewrite EqOfM_short by (cbn; lia). intros [= <-]. now left.
  - rewrite EqOfM_cases.
    destruct (Stage.Cd_of_Mach _); [destruct (mass_and_thrust _ _ _).1 |];
      cbn; intros [= <-]; now right.
Qed.

(** The rates of the position are the velocity given. *)
Lemma EqOfM_rates (s : State.t num) (t : num) (stages : list (Stage.t num))
    (r : State.t num * Diag.t num) :
  result (EqOfM s t stages) = Ok r ->
  State.rx r.1 = State.vx s /\ State.ry r.1 = State.vy s.
Proof.
  destruct stages as [| s1 [| s2 rest]].
  - rewrite EqOfM_short by (cbn; lia). discriminate.
  - rewrite EqOfM_short by (cbn; lia). discriminate.
  - rewrite EqOfM_cases.
    destruct (Stage.Cd_of_Mach _); [destruct (mass_and_thrust _ _ _).1 |];
      cbn; try discriminate.
    intros [= <-]. split; reflexivity.
Qed.
End EqOfM_cases.

Section ends.
Context {num : Type} {AR : Arith num} {EX : Externals num}.
Variables (STATE0 : State.t num) (t0 dt Tf : num).
Variable stages : list (Stage.t num).

Lemma euler_ends : result (euler STATE0 t0 dt Tf stages) <> Diverged.
Proof.
  destruct (np_arange_len t0 Tf dt) as [e | steps] eqn:EA.
  { now rewrite (euler_arange_raises _ _ _ _ _ e EA). }
  unfold euler. rewrite result_bind, (euler_run_unfold _ _ _ _ _ steps EA).
  pose proof (euler_loop_ends STATE0 t0 dt Tf stages steps (steps + 1) 0%nat
                ltac:(lia) ltac:(lia)) as N.
  destruct (result (euler_loop _ _ _ _ _ _ _)); [discriminate.. | contradiction].
Qed.

Lemma euler_loop_raises (steps fuel : nat) (e : exn) :
  forall k : nat,
    (k <= steps)%nat ->
    result (euler_loop fuel dt Tf stages (time_of t0 dt k) k
              (arrays_at STATE0 t0 dt stages steps k)) = Raise e ->
    e = IndexError \/ e = UnboundLocalError.
Proof.
  induction fuel as [| fuel IH]; intros k Lk R.
  - cbn [euler_loop] in R. now destruct (ltb _ Tf).
  - destruct (ltb (time_of t0 dt k) Tf) eqn:T.
    + destruct (result (EqOfM (state_at STATE0 t0 dt stages k)
                          (time_of t0 dt k) stages)) as [r | e' |] eqn:E.
      * destruct (decide (k < steps)%nat) as [L | L].
        -- rewrite (euler_loop_pass _ _ _ _ _ _ _ _ r) in R by assumption.
           rewrite result_bind in R. cbn [result] in R.
           rewrite (Nat.add_1_r k) in R. apply (IH (S k)); [lia | exact R].
        -- assert (k = steps) as -> by lia.
           rewrite (euler_loop_overrun _ _ _ _ _ _ _ r) in R by assumption.
           injection R as <-. now left.
      * rewrite (euler_loop_raise _ _ _ _ _ _ _ _ e') in R by assumption.
        injection R as <-. exact (EqOfM_raises _ _ _ _ E).
      * now destruct (EqOfM_ends (state_at STATE0 t0 dt stages k)
                        (time_of t0 dt k) stages).
    + rewrite euler_loop_exit in R by assumption. discriminate.
Qed.
End ends.

(** * The specification's statements *)

(** ** The integrator *)

(** C1, at an input where the code fails it.  In double precision, for the
    call [euler(STATE0, 0, 0.3, 0.9, stages)], [np.arange] counts 3 steps, so
    4 rows are allocated; but the time the loop accumulates is still
    below 0.9 after three passes ([0.3 + 0.3 + 0.3] is
    [0.8999999999999999]), so a fourth pass is started and no run returns,
    whatever the initial state, the stages and the imported functions: with
    the vehicle of [main] on the pad, the fourth pass raises IndexError at
    its first write. *)
Theorem euler_overrun_binary64 :
  np_arange_len 0%float 0.9%float 0.3%float = inr 3%nat /\
  (forall i : nat, (i <= 3)%nat ->
     ltb (time_of 0%float 0.3%float i) 0.9%float = true) /\
  (forall (EX : Externals float) (STATE0 : State.t float)
          (stages : list (Stage.t float)),
     exists e : exn,
       result (euler STATE0 0%float 0.3%float 0.9%float stages) = Raise e) /\
  @euler float binary64 Sample64.externals
    (State.mk 0%float 6378e3%float 0%float 0%float) 0%float 0.3%float 0.9%float
    [Sample64.F9S1; Sample64.F9S2]
  = mkPy [altitude_notice] (Raise IndexError).
Proof.
  assert (A : np_arange_len 0%float 0.9%float 0.3%float = inr 3%nat)
    by (vm_compute; reflexivity).
  assert (T : forall i : nat, (i <= 3)%nat ->
            ltb (time_of 0%float 0.3%float i) 0.9%float = true).
  { intros i Li. destruct i as [| [| [| [| i]]]]; try lia;
      vm_compute; reflexivity. }
  split; [exact A |]. split; [exact T |]. split; [| vm_compute; reflexivity].
  intros EX STATE0 stages.
  destruct (result (euler STATE0 0%float 0.3%float 0.9%float stages))
    as [[STATEF V] | e |] eqn:R.
  - destruct (euler_returns _ _ _ _ _ _ _ R)
      as (steps & n & EA & _ & Ln & [_ Tn] & _).
    rewrite A in EA. injection EA as <-.
    rewrite T in Tn by exact Ln. discriminate.
  - now exists e.
  - now destruct (euler_ends STATE0 0%float 0.3%float 0.9%float stages).
Qed.




(** C10.  Whatever the start time [t0], in the state matrix a run of
    [euler] returns the time of row 0 is 0, the value the column was
    allocated with.  The rows after it that the passes of the loop have
    written, rows 1 to [n], hold [t0] with [dt] added once for each pass,
    [t0 + dt] in row 1; a row the loop has not reached holds 0. *)
Theorem euler_time_column {num : Type} {AR : Arith num} {EX : Externals num}
    (STATE0 : State.t num) (t0 dt Tf : num) (stages : list (Stage.t num))
    (STATEF : list (TableRow.t num)) (V : list (Diag.t num)) :
  result (euler STATE0 t0 dt Tf stages) = Ok (STATEF, V) ->
  (exists r0, STATEF !! 0%nat = Some r0 /\ TableRow.T r0 = lit 0) /\
  exists n : nat,
    (n < length STATEF)%nat /\ passes t0 dt Tf n /\
    (forall i : nat, (1 <= i <= n)%nat ->
       exists r, STATEF !! i = Some r /\ TableRow.T r = time_of t0 dt i) /\
    time_of t0 dt 1 = add t0 dt /\
    (forall (i : nat) (r : TableRow.t num),
       (n < i)%nat -> STATEF !! i = Some r -> TableRow.T r = lit 0).
Proof.
  intros R.
  destruct (euler_returns _ _ _ _ _ _ _ R)
    as (steps & n & _ & _ & Ln & P & _ & -> & -> & _).
  split.
  - eexists. split; [apply STATEF_lookup; lia |]. cbn [TableRow.T].
    now rewrite decide_False by lia.
  - exists n. rewrite STATEF_length. split; [lia |]. split; [exact P |].
    split; [| split; [reflexivity |]].
    + intros i Li. eexists. split; [apply STATEF_lookup; lia |].
      cbn [TableRow.T]. now rewrite decide_True by lia.
    + intros i r Li E.
      assert (B : (i < steps + 1)%nat).
      { rewrite <- (STATEF_length STATE0 t0 dt stages steps n).
        apply (lookup_lt_Some _ _ _ E). }
      rewrite STATEF_lookup in E by lia. injection E as <-.
      cbn [TableRow.T]. now rewrite decide_False by lia.
Qed.

Lemma euler_time_column_witness :
  exists (STATEF : list (TableRow.t float)) (V : list (Diag.t float)),
    result (@euler float binary64 Sample64.externals
              (State.mk 0%float 6378e3%float 0%float 0%float)
              10%float 0.5%float 11%float [Sample64.F9S1; Sample64.F9S2])
    = Ok (STATEF, V) /\
    exists r0, STATEF !! 0%nat = Some r0 /\ TableRow.T r0 = 0%float.
Proof.
  destruct (result (@euler float binary64 Sample64.externals
              (State.mk 0%float 6378e3%float 0%float 0%float)
              10%float 0.5%float 11%float [Sample64.F9S1; Sample64.F9S2]))
    as [[STATEF V] | e |] eqn:R; [| vm_compute in R; discriminate..].
  exists STATEF, V. split; [reflexivity |].
  destruct (euler_time_column _ _ _ _ _ _ _ R) as [(r0 & E0 & T0) _].
  exists r0. split; [exact E0 |]. rewrite T0. vm_compute. reflexivity.
Defined.

(** ** The equations of motion *)

(** C2. [EqOfM] takes mass and thrust from stage 1 when [t] is at most the
    burn time of stage 1, the burn time itself included, and from stage 2
    otherwise; they are the mass of the vehicle state it returns and the
    magnitude of its thrust components, and the acceleration is computed
    with them.  The rates of the position are the velocity of the state
    given, on either side of the switch: the stage changes the mass and
    thrust terms of the derivative only. *)
Theorem EqOfM_stage_selection {EX : Externals Q} (s : State.t Q) (t : Q)
    (s1 s2 : Stage.t Q) (rest : list (Stage.t Q)) :
  let tb1 := Stage.tb s1 in
  let mass := if t <=? tb1 then Stage.M s1 - Stage.mdot s1 * t
              else Stage.M s2 - Stage.mdot s2 * (t - tb1) in
  let TT := if t <=? tb1 then Stage.Thrust s1 else Stage.Thrust s2 in
  mass_and_thrust t s1 s2 = (Some mass, TT) /\
  mass_and_thrust tb1 s1 s2 =
    (Some (Stage.M s1 - Stage.mdot s1 * tb1), Stage.Thrust s1) /\
  exists out d v psi,
    EqOfM s t (s1 :: s2 :: rest) = mkPy out (Ok (d, v)) /\
    Diag.M v = mass /\
    Diag.Tx v = TT * np_cos psi /\ Diag.Ty v = TT * np_sin psi /\
    State.rx d = State.vx s /\ State.ry d = State.vy s /\
    State.vx d = Diag.Tx v / mass - Diag.Dx v / mass + (gravity s).1 /\
    State.vy d = Diag.Ty v / mass - Diag.Dy v / mass + (gravity s).2.
Proof.
  intros tb1 mass TT. split; [apply mass_and_thrust_eq |]. split.
  - rewrite mass_and_thrust_eq. unfold active_mass, active_thrust, tb1.
    assert (E : (Stage.tb s1 <=? Stage.tb s1) = true)
      by (apply Qle_bool_iff; lra).
    now rewrite E.
  - eexists _, _, _, _. split; [apply EqOfM_eq |].
    unfold motion. cbn. repeat split; reflexivity.
Qed.

(** C3. The thrust angle of [EqOfM] is 90 degrees unless [t] is less than
    the burn time of stage 1 plus 300 and the altitude is more than 100:
    then it is 87 degrees when the flight-path angle [arctan2(vy, vx)] is
    more than 83 degrees, and the flight-path angle otherwise.  The thrust
    components returned are the thrust times the cosine and the sine of
    that angle. *)
Theorem EqOfM_thrust_angle {EX : Externals Q} (s : State.t Q) (t : Q)
    (s1 s2 : Stage.t Q) (rest : list (Stage.t Q)) :
  let phi := np_arctan2 (State.vy s) (State.vx s) in
  let h := np_power ((State.rx s)^2 + (State.ry s)^2) 0.5 - 6378e3 in
  let psi :=
    if (t <? Stage.tb s1 + 300) && (h >? 100) then
      if phi >? np_deg2rad 83 then np_deg2rad 87 else phi
    else np_deg2rad 90 in
  thrust_angle t s1 h phi = psi /\
  exists out d v,
    EqOfM s t (s1 :: s2 :: rest) = mkPy out (Ok (d, v)) /\
    Diag.phi v = phi /\
    Diag.Tx v = (mass_and_thrust t s1 s2).2 * np_cos psi /\
    Diag.Ty v = (mass_and_thrust t s1 s2).2 * np_sin psi.
Proof.
  intros phi h psi. split; [apply thrust_angle_eq |].
  eexists _, _, _. split; [apply EqOfM_eq |].
  rewrite mass_and_thrust_eq. unfold motion. cbn. repeat split; reflexivity.
Qed.

(** C8. The drag in what [EqOfM] returns is the drag [GetDrag] computes on
    the first stage of the list, at every time, before and after stage 2
    takes over; the aerodynamic parameters of the second stage have no
    effect on the result. *)
Theorem EqOfM_drag_stage1 {EX : Externals Q} (s : State.t Q) (t : Q)
    (s1 s2 : Stage.t Q) (rest : list (Stage.t Q)) :
  let R := np_power ((State.rx s)^2 + (State.ry s)^2) 0.5 in
  let V := np_power ((State.vx s)^2 + (State.vy s)^2) 0.5 in
  (exists out d v D,
     EqOfM s t (s1 :: s2 :: rest) = mkPy out (Ok (d, v)) /\
     Stage.GetDrag s1 (R - 6378e3) V (State.vx s) (State.vy s) = mret D /\
     Diag.Dx v = D.1 /\ Diag.Dy v = D.2) /\
  (forall Cd' A' : Q,
     EqOfM s t (s1 :: with_aero s2 Cd' A' :: rest) = EqOfM s t (s1 :: s2 :: rest)).
Proof.
  intros R V. split.
  - eexists _, _, _, _. split; [apply EqOfM_eq |].
    split; [apply GetDrag_eq |]. split; reflexivity.
  - intros Cd' A'. rewrite !EqOfM_eq. reflexivity.
Qed.

(** ** Drag *)

(** C4. [GetDrag] takes temperature [T] and density [rho] from the
    atmosphere at the altitude, the Mach number [M = V / sqrt(1.14 * 287 * T)],
    the drag coefficient of the regime of [M] (breakpoints 1.25, 4 and 10,
    0.255 beyond 10), and returns [0.5 rho vx V A Cd] and
    [0.5 rho vy V A Cd]. *)
Theorem GetDrag_spec {EX : Externals Q} (self : Stage.t Q) (h V vx vy : Q) :
  let T := (Atmosphere h).1 in
  let rho := (Atmosphere h).2 in
  let M := V / np_sqrt (1.14 * 287 * T) in
  let Cd :=
    if M <=? 1.25 then
      (-0.0415) * M^3 + 0.3892 * M^2 - 0.2614 * M + 0.303
    else if M <=? 4 then
      (-0.049) * M^4 + 0.5664 * M^3 - 2.3265 * M^2 + 3.8512 * M - 1.6625
    else if M <=? 10 then
      (-0.0037) * M^3 + 0.0695 * M^2 - 0.4105 * M + 0.9732
    else 0.255 in
  Stage.GetDrag self h V vx vy =
  mret (0.5 * rho * vx * V * Stage.A self * Cd,
        0.5 * rho * vy * V * Stage.A self * Cd).
Proof. intros T rho M Cd. apply GetDrag_eq. Qed.

(** C7, as the code has it.  At the breakpoints the two expressions next
    to each other differ by 0.00035546875 (at 1.25), by 0.0175 (at 4) and
    by 0.1368 (at 10, where the chain of [GetDrag] gives the cubic and,
    for every larger Mach number, 0.255): the curve is continuous at every
    breakpoint within a tolerance exactly when the tolerance is 0.1368 or
    more. *)
Theorem Cd_continuity :
  Qabs (Stage.Cd_low 1.25 - Stage.Cd_mid 1.25) == 0.00035546875 /\
  Qabs (Stage.Cd_mid 4 - Stage.Cd_high 4) == 0.0175 /\
  Qabs (Stage.Cd_high 10 - Stage.Cd_top) == 0.1368 /\
  Stage.Cd_of_Mach 10 = Some (Stage.Cd_high 10) /\
  (forall M : Q, 10 < M -> Stage.Cd_of_Mach M = Some Stage.Cd_top) /\
  (forall tol : Q, Cd_continuous_within tol <-> 0.1368 <= tol).
Proof.
  split; [apply Cd_gap_low_mid |]. split; [apply Cd_gap_mid_high |].
  split; [apply Cd_gap_high_top |]. split; [reflexivity |]. split.
  - intros M L. rewrite Cd_of_Mach_piecewise. f_equal.
    now apply Cd_piecewise_top.
  - intros tol. unfold Cd_continuous_within, Cd_breakpoints, nearly_equal.
    rewrite !Forall_cons. cbn [fst snd].
    rewrite Cd_gap_low_mid, Cd_gap_mid_high, Cd_gap_high_top.
    split; [intros (_ & _ & L & _); exact L |].
    intros L. repeat split; try lra. constructor.
Qed.

(** C7 fails: at Mach 10 the cubic gives 0.1182 and the next regime 0.255,
    values that are not within a tenth of each other. *)
Lemma Cd_jump_at_10 :
  Stage.Cd_high 10 == 0.1182 /\ Stage.Cd_top == 0.255 /\
  ~ nearly_equal 0.1 (Stage.Cd_high 10) Stage.Cd_top /\
  ~ Cd_continuous_within 0.1.
Proof.
  split; [vm_compute; reflexivity |]. split; [reflexivity |].
  assert (N : ~ nearly_equal 0.1 (Stage.Cd_high 10) Stage.Cd_top).
  { unfold nearly_equal. rewrite Cd_gap_high_top. lra. }
  split; [exact N |].
  unfold Cd_continuous_within, Cd_breakpoints. rewrite !Forall_cons.
  intros (_ & _ & L & _). exact (N L).
Qed.

(** ** Construction of a stage *)

(** C5, as the code has it.  A stage with a specific impulse [I > 0] and a
    thrust [T] that is not zero is constructed, its mass flow rate is
    [T / (I * 9.81)] and its burn time is [Mf * I * 9.81 / T], with [Mf] the
    mass the constructor takes next to last, not the last one, [Mp]. *)
Theorem init_derived (Name : string) (T Cd A I Ms Mf Mp : Q) :
  0 < I -> ~ T == 0 ->
  exists s : Stage.t Q,
    Stage.init Name T Cd A I Ms Mf Mp = mret s /\
    Stage.mdot s = T / (I * 9.81) /\
    Stage.tb s == Mf * I * 9.81 / T /\
    Stage.M s = Ms + Mf + Mp.
Proof.
  intros PI NT. rewrite init_cases.
  assert (EI : Qeq_bool I 0 = false) by (apply Qeq_bool_false; lra).
  assert (ET : Qeq_bool T 0 = false) by (apply Qeq_bool_false; exact NT).
  rewrite EI, ET. cbn [orb]. eexists. split; [reflexivity |].
  cbn [Stage.mdot Stage.tb Stage.M]. split; [reflexivity |].
  split; [| reflexivity]. field. split; [exact NT | lra].
Qed.

Lemma init_derived_witness :
  exists s : Stage.t Q,
    Stage.init "Stage 1" 7426e3 0.3 10.75 282 27.2e3 411e3 116e3 = mret s /\
    Stage.tb s == 411e3 * 282 * 9.81 / 7426e3.
Proof.
  destruct (init_derived "Stage 1" 7426e3 0.3 10.75 282 27.2e3 411e3 116e3)
    as (s & E & _ & T & _); [reflexivity | discriminate |].
  exists s. split; [exact E | exact T].
Defined.

(** C5 fails: the burn time of stage 1 of [main] is not
    [Mp * I * 9.81 / T]. *)
Lemma init_burn_time_not_Mp :
  exists s : Stage.t Q,
    Stage.init "Stage 1" 7426e3 0.3 10.75 282 27.2e3 411e3 116e3 = mret s /\
    Stage.mdot s == 7426e3 / (282 * 9.81) /\
    ~ Stage.tb s == 116e3 * 282 * 9.81 / 7426e3.
Proof.
  eexists. split; [reflexivity |]. split; [reflexivity | discriminate].
Qed.

(** C6, as the code has it.  The constructor checks nothing.  It fails
    exactly when one of its two divisions has a zero divisor, that is when
    [Isp * 9.81] is zero or the mass flow rate [Thrust / (Isp * 9.81)] it
    has just computed is, and the exception then is ZeroDivisionError; with
    any other parameters, a negative specific impulse or mass flow rate
    included, the stage is constructed.  In exact arithmetic the two
    divisors are zero exactly when the specific impulse or the thrust is;
    in double precision they can also be zero by rounding: a specific
    impulse of 1e308 makes [Isp * 9.81] infinite and the flow rate 0. *)
Theorem init_fails_iff :
  (forall (num : Type) (AR : Arith num) (Name : string)
          (T Cd A I Ms Mf Mp : num),
     (result (Stage.init Name T Cd A I Ms Mf Mp) = Raise ZeroDivisionError
      <-> is_zero (mul I (lit 9.81)) = true \/
          is_zero (div T (mul I (lit 9.81))) = true) /\
     ((exists s, Stage.init Name T Cd A I Ms Mf Mp = mret s)
      <-> is_zero (mul I (lit 9.81)) = false /\
          is_zero (div T (mul I (lit 9.81))) = false) /\
     (forall e, result (Stage.init Name T Cd A I Ms Mf Mp) = Raise e ->
                e = ZeroDivisionError)) /\
  (forall (Name : string) (T Cd A I Ms Mf Mp : Q),
     result (Stage.init Name T Cd A I Ms Mf Mp) = Raise ZeroDivisionError
     <-> I == 0 \/ T == 0) /\
  Stage.init "Stage 1" 7426e3%float 0.3%float 10.75%float 1e308%float
    27.2e3%float 411e3%float 116e3%float
  = raise ZeroDivisionError.
Proof.
  split; [| split; [| vm_compute; reflexivity]].
  - intros num AR Name T Cd A I Ms Mf Mp. rewrite init_unfold.
    destruct (is_zero (mul I (lit 9.81)));
      [| destruct (is_zero (div T (mul I (lit 9.81))))].
    + split; [| split].
      * split; [now left | reflexivity].
      * split; [intros (s & E); discriminate | intros (N & _); discriminate].
      * intros e E. injection E as <-. reflexivity.
    + split; [| split].
      * split; [now right | reflexivity].
      * split; [intros (s & E); discriminate | intros (_ & N); discriminate].
      * intros e E. injection E as <-. reflexivity.
    + split; [| split].
      * split; [discriminate | intros [E | E]; discriminate].
      * split; [intros _; now split | intros _; eexists; reflexivity].
      * discriminate.
  - intros Name T Cd A I Ms Mf Mp. rewrite init_cases.
    destruct (Qeq_bool I 0) eqn:EI; [| destruct (Qeq_bool T 0) eqn:ET];
      cbn [orb].
    + apply Qeq_bool_iff in EI. split; [now left | reflexivity].
    + apply Qeq_bool_iff in ET. split; [now right | reflexivity].
    + apply Qeq_bool_false in EI, ET.
      split; [discriminate | intros [E | E]; contradiction].
Qed.

(** C6 fails: a negative specific impulse is accepted, and gives a stage
    with a negative mass flow rate. *)
Lemma init_accepts_negative_Isp :
  exists s : Stage.t Q,
    Stage.init "Stage 1" 7426e3 0.3 10.75 (-282) 27.2e3 411e3 116e3 = mret s /\
    Stage.Isp s < 0 /\ Stage.mdot s < 0.
Proof. eexists. split; [reflexivity |]. split; reflexivity. Qed.

(** * Further properties of the code *)

(** ** The integrator in exact arithmetic *)

Lemma time_of_eq (t0 dt : Q) (n : nat) :
  time_of t0 dt n == t0 + inject_Z (Z.of_nat n) * dt.
Proof.
  induction n as [| n IH].
  - simpl. ring.
  - cbn [time_of]. exact_arith. rewrite IH, Nat2Z.inj_succ. unfold Z.succ.
    rewrite inject_Z_plus. ring.
Qed.

Lemma Qdiv_lt_iff (k q d : Q) : 0 < d -> (k < q / d <-> k * d < q).
Proof.
  intros P.
  assert (E : q / d * d == q) by (field; lra).
  split; intros L.
  - rewrite <- E. apply Qmult_lt_compat_r; assumption.
  - destruct (Qlt_le_dec k (q / d)) as [L' | L']; [exact L' |].
    exfalso. apply (Qmult_le_compat_r _ _ d) in L'; lra.
Qed.

Lemma Qceiling_gt_iff (k : Z) (q : Q) : (k < Qceiling q)%Z <-> inject_Z k < q.
Proof.
  split; intros L.
  - apply Qle_lt_trans with (inject_Z (Qceiling q - 1)).
    + rewrite <- Zle_Qle. lia.
    + apply Qceiling_lt.
  - rewrite Zlt_Qlt. apply Qlt_le_trans with q; [exact L | apply Qle_ceiling].
Qed.

(** In exact arithmetic [steps] counts the [k] with [t0 + k dt < Tf]. *)
Lemma steps_of_count (t0 dt Tf : Q) (k : nat) :
  0 < dt ->
  (k < steps_of t0 dt Tf)%nat <-> t0 + inject_Z (Z.of_nat k) * dt < Tf.
Proof.
  intros P. unfold steps_of.
  assert (E : (k < Z.to_nat (Qceiling ((Tf - t0) / dt)))%nat <->
              (Z.of_nat k < Qceiling ((Tf - t0) / dt))%Z) by lia.
  rewrite E, Qceiling_gt_iff, (Qdiv_lt_iff _ _ _ P). split; intros L; lra.
Qed.

Section euler_exact.
Context {EX : Externals Q}.

Lemma euler_alloc_cons (STATE0 : State.t Q) (steps : nat) :
  euler_alloc STATE0 steps =
  mret (mkArrays (State.rx STATE0 :: replicate steps 0)
                 (State.ry STATE0 :: replicate steps 0)
                 (State.vx STATE0 :: replicate steps 0)
                 (State.vy STATE0 :: replicate steps 0)
                 (replicate (steps + 1) 0)
                 (replicate (steps + 1) Diag.zeros)).
Proof.
  unfold euler_alloc, np_zeros, np_zeros6.
  rewrite !setitem_lt by (rewrite length_replicate; lia).
  rewrite !bind_ret, Nat.add_1_r. reflexivity.
Qed.

Lemma euler_unfold (STATE0 : State.t Q) (t0 dt Tf : Q)
    (stages : list (Stage.t Q)) :
  ~ dt == 0 ->
  euler STATE0 t0 dt Tf stages =
  (r ← euler_loop (steps_of t0 dt Tf + 1) dt Tf stages t0 0%nat
         (mkArrays (State.rx STATE0 :: replicate (steps_of t0 dt Tf) 0)
                   (State.ry STATE0 :: replicate (steps_of t0 dt Tf) 0)
                   (State.vx STATE0 :: replicate (steps_of t0 dt Tf) 0)
                   (State.vy STATE0 :: replicate (steps_of t0 dt Tf) 0)
                   (replicate (steps_of t0 dt Tf + 1) 0)
                   (replicate (steps_of t0 dt Tf + 1) Diag.zeros));
   mret (STATEF_of r.2, v_states r.2)).
Proof.
  intros N. unfold euler, euler_run, arange_len.
  assert (E : np_arange_len t0 Tf dt = inr (steps_of t0 dt Tf)).
  { exact_arith. apply Qeq_bool_false in N. now rewrite N. }
  rewrite E, bind_ret. now rewrite euler_alloc_cons, bind_ret.
Qed.

(** X2. When the final time is not after the start time (and the step is
    not zero) the loop makes no pass: nothing is printed, [EqOfM] is not
    called (any list of stages will do), and the tables returned hold the
    initial state in row 0, with time 0, and zeros everywhere else; for a
    positive step they have that one row only. *)
Theorem euler_empty_range (STATE0 : State.t Q) (t0 dt Tf : Q)
    (stages : list (Stage.t Q)) :
  ~ dt == 0 -> Tf <= t0 ->
  euler STATE0 t0 dt Tf stages =
  mret (TableRow.mk 0 (State.rx STATE0) (State.ry STATE0)
                    (State.vx STATE0) (State.vy STATE0)
          :: replicate (steps_of t0 dt Tf) (TableRow.mk 0 0 0 0 0),
        replicate (steps_of t0 dt Tf + 1) Diag.zeros) /\
  (0 < dt -> steps_of t0 dt Tf = 0%nat).
Proof.
  intros N L. split.
  - rewrite (euler_unfold _ _ _ _ _ N).
    assert (T : ltb t0 Tf = false).
    { exact_arith. rewrite Qlt_bool_negb. apply Qle_bool_iff in L.
      now rewrite L. }
    rewrite Nat.add_1_r. cbn [euler_loop]. rewrite T, bind_ret.
    unfold STATEF_of. cbn [snd X Y Vx Vy T_array v_states replicate zip_with].
    now rewrite !zip_with_replicate.
  - intros P. destruct (steps_of t0 dt Tf) eqn:E; [reflexivity |].
    assert (C : (0 < steps_of t0 dt Tf)%nat) by lia.
    apply (steps_of_count t0 dt Tf 0 P) in C.
    change (inject_Z (Z.of_nat 0)) with 0 in C. lra.
Qed.

(** X3. With a negative step and a final time after the start time no row
    beyond row 0 is allocated, yet the loop is entered: [euler] evaluates
    [EqOfM] once, at the initial state and time, and raises IndexError on
    the first write. *)
Theorem euler_negative_step (STATE0 : State.t Q) (t0 dt Tf : Q)
    (s1 s2 : Stage.t Q) (rest : list (Stage.t Q)) :
  dt < 0 -> t0 < Tf ->
  euler STATE0 t0 dt Tf (s1 :: s2 :: rest) =
  mkPy (notices STATE0 t0) (Raise IndexError).
Proof.
  intros N L. rewrite euler_unfold by lra.
  assert (S0 : steps_of t0 dt Tf = 0%nat).
  { unfold steps_of.
    assert (Q0 : (Tf - t0) / dt <= 0).
    { assert (E : (Tf - t0) / dt == - ((Tf - t0) / - dt)) by (field; lra).
      rewrite E.
      assert (0 <= (Tf - t0) / - dt); [| lra].
      apply Qle_shift_div_l; lra. }
    apply Qceiling_resp_le in Q0. change (Qceiling 0) with 0%Z in Q0. lia. }
  rewrite S0. cbn [Nat.add replicate euler_loop].
  assert (T : ltb t0 Tf = true) by (exact_arith; now apply Qlt_bool_iff).
  rewrite T. cbn [X Y Vx Vy getitem lookup list_lookup].
  rewrite !bind_ret, state_eta.
  rewrite (bind_Ok _ _ _ _ (EqOfM_eq STATE0 t0 s1 s2 rest)).
  rewrite (setitem_ge [State.rx STATE0] 1) by (cbn; lia).
  cbn. now rewrite app_nil_r.
Qed.

(** X4. [EqOfM] needs two stages: on a shorter list it raises IndexError
    and prints nothing, and so does [euler] as soon as its loop makes a
    pass, that is whenever the start time is before the final time. *)
Theorem short_stage_list (s : State.t Q) (t t0 dt Tf : Q)
    (stages : list (Stage.t Q)) :
  (length stages < 2)%nat ->
  EqOfM s t stages = raise IndexError /\
  (~ dt == 0 -> t0 < Tf -> euler s t0 dt Tf stages = raise IndexError).
Proof.
  intros L. split; [now apply EqOfM_short |].
  intros N Lt. rewrite (euler_unfold _ _ _ _ _ N), Nat.add_1_r.
  cbn [euler_loop].
  assert (T : ltb t0 Tf = true) by (exact_arith; now apply Qlt_bool_iff).
  rewrite T. cbn [X Y Vx Vy getitem lookup list_lookup].
  rewrite !bind_ret, (EqOfM_short _ _ _ L). reflexivity.
Qed.
End euler_exact.

Lemma short_stage_list_witness :
  @euler Q exact Sample.externals (State.mk 0 6378e3 0 0) 0 0.5 2
    [Sample.stage "Stage 1" 7426e3 282 27.2e3 411e3 116e3]
  = raise IndexError.
Proof.
  destruct (@short_stage_list Sample.externals (State.mk 0 6378e3 0 0)
              0 0 0.5 2 [Sample.stage "Stage 1" 7426e3 282 27.2e3 411e3 116e3])
    as [_ E]; [cbn; lia |].
  apply E; [discriminate | reflexivity].
Defined.

Lemma euler_empty_range_witness :
  @euler Q exact Sample.externals (State.mk 0 6378e3 0 0) 5 0.5 5 [] =
  mret ([TableRow.mk 0 0 6378e3 0 0], [Diag.zeros]).
Proof.
  destruct (@euler_empty_range Sample.externals (State.mk 0 6378e3 0 0)
              5 0.5 5 []) as [E _]; [discriminate | discriminate |].
  exact E.
Defined.

Lemma euler_negative_step_witness :
  @euler Q exact Sample.externals (State.mk 0 6378e3 0 0) 0 (-0.5) 2
    [Sample.stage "Stage 1" 7426e3 282 27.2e3 411e3 116e3;
     Sample.stage "Stage 2" 934e3 348 4.5e3 111.5e3 0]
  = mkPy [] (Raise IndexError).
Proof.
  rewrite (@euler_negative_step Sample.externals (State.mk 0 6378e3 0 0)
             0 (-0.5) 2); [| reflexivity | reflexivity].
  reflexivity.
Defined.

(** ** What the equations of motion read of the stages *)

Section stage_reads.
Context {num : Type} {AR : Arith num} {EX : Externals num}.

Lemma euler_loop_ext (dt Tf : num) (stages stages' : list (Stage.t num)) :
  (forall s t, EqOfM s t stages = EqOfM s t stages') ->
  forall (fuel : nat) (t : num) (n : nat) (a : Arrays num),
    euler_loop fuel dt Tf stages t n a = euler_loop fuel dt Tf stages' t n a.
Proof.
  intros E. induction fuel as [| fuel IH]; intros t n a; [reflexivity |].
  cbn [euler_loop]. destruct (ltb t Tf); [| reflexivity].
  do 4 (apply bind_ext; intros ?). rewrite E.
  do 7 (apply bind_ext; intros ?). apply IH.
Qed.

(** X5. Of a list of stages [EqOfM] reads the thrust, mass flow rate, burn
    time, total mass and area of the first stage and the thrust, mass flow
    rate and total mass of the second: two lists that agree on these give
    the same result, in [EqOfM] and in [euler], whatever the names, the
    stored drag coefficients, the specific impulses, the masses [Ms], [Mf]
    and [Mp], the area and burn time of the second stage and the stages
    after it. *)
Theorem stages_read (s1 s2 s1' s2' : Stage.t num) (rest rest' : list (Stage.t num)) :
  Stage.Thrust s1 = Stage.Thrust s1' -> Stage.mdot s1 = Stage.mdot s1' ->
  Stage.tb s1 = Stage.tb s1' -> Stage.M s1 = Stage.M s1' ->
  Stage.A s1 = Stage.A s1' ->
  Stage.Thrust s2 = Stage.Thrust s2' -> Stage.mdot s2 = Stage.mdot s2' ->
  Stage.M s2 = Stage.M s2' ->
  (forall (s : State.t num) (t : num),
     EqOfM s t (s1 :: s2 :: rest) = EqOfM s t (s1' :: s2' :: rest')) /\
  (forall (STATE0 : State.t num) (t0 dt Tf : num),
     euler STATE0 t0 dt Tf (s1 :: s2 :: rest) =
     euler STATE0 t0 dt Tf (s1' :: s2' :: rest')).
Proof.
  intros E1 E2 E3 E4 E5 E6 E7 E8.
  assert (E : forall s t,
             EqOfM s t (s1 :: s2 :: rest) = EqOfM s t (s1' :: s2' :: rest')).
  { intros s t. rewrite !EqOfM_cases.
    unfold motion_of, mass_and_thrust, thrust_angle.
    now rewrite E1, E2, E3, E4, E5, E6, E7, E8. }
  split; [exact E |].
  intros STATE0 t0 dt Tf. unfold euler, euler_run.
  apply (f_equal (fun m => m ≫= _)).
  do 2 (apply bind_ext; intros ?). now apply euler_loop_ext.
Qed.
End stage_reads.

Lemma stages_read_witness :
  @EqOfM Q exact Sample.externals (State.mk 0 6378e3 0 0) 1
    [Sample.stage "Stage 1" 7426e3 282 27.2e3 411e3 116e3;
     Sample.stage "Stage 2" 934e3 348 4.5e3 111.5e3 0;
     Sample.stage "Stage 3" 1 1 1 1 1] =
  @EqOfM Q exact Sample.externals (State.mk 0 6378e3 0 0) 1
    [with_aero (Sample.stage "Stage 1" 7426e3 282 27.2e3 411e3 116e3) 0.9 10.75;
     with_aero (Sample.stage "Stage 2" 934e3 348 4.5e3 111.5e3 0) 0 0].
Proof.
  destruct (@stages_read Q exact Sample.externals
              (Sample.stage "Stage 1" 7426e3 282 27.2e3 411e3 116e3)
              (Sample.stage "Stage 2" 934e3 348 4.5e3 111.5e3 0)
              (with_aero (Sample.stage "Stage 1" 7426e3 282 27.2e3 411e3 116e3)
                         0.9 10.75)
              (with_aero (Sample.stage "Stage 2" 934e3 348 4.5e3 111.5e3 0) 0 0)
              [Sample.stage "Stage 3" 1 1 1 1 1] []) as [E _];
    [reflexivity.. |].
  apply E.
Defined.

(** ** Stages as constructed *)

(** X6. In a stage as constructed the seven numbers given are stored
    unchanged, the total mass is [Ms + Mf + Mp], and flow rate and burn
    time fit: burning at [mdot] for [tb] uses up exactly [Mf], so at the
    burn time the mass [EqOfM] takes for stage 1 is [Ms + Mp]. *)
Theorem init_invariant (Name : string) (T Cd A I Ms Mf Mp : Q)
    (s s2 : Stage.t Q) :
  Stage.init Name T Cd A I Ms Mf Mp = mret s ->
  (Stage.Name s = Name /\ Stage.Thrust s = T /\ Stage.Cd s = Cd /\
   Stage.A s = A /\ Stage.Isp s = I /\ Stage.Ms s = Ms /\ Stage.Mf s = Mf /\
   Stage.Mp s = Mp /\ Stage.M s = Ms + Mf + Mp) /\
  Stage.mdot s * Stage.tb s == Mf /\
  active_mass (Stage.tb s) s s2 == Ms + Mp.
Proof.
  rewrite init_cases.
  destruct (Qeq_bool I 0) eqn:EI; [discriminate |].
  destruct (Qeq_bool T 0) eqn:ET; [discriminate |]. cbn [orb].
  intros [= <-]. apply Qeq_bool_false in EI, ET.
  split; [repeat split |].
  cbn [Stage.mdot Stage.tb].
  assert (E : T / (I * 9.81) * (Mf / (T / (I * 9.81))) == Mf)
    by (field; repeat split; lra).
  split; [exact E |].
  unfold active_mass. cbn [Stage.mdot Stage.tb Stage.M].
  assert (L : (Mf / (T / (I * 9.81)) <=? Mf / (T / (I * 9.81))) = true)
    by (apply Qle_bool_iff; lra).
  rewrite L, E. ring.
Qed.

Lemma init_invariant_witness :
  exists s : Stage.t Q,
    Stage.init "Stage 1" 7426e3 0.3 10.75 282 27.2e3 411e3 116e3 = mret s /\
    Stage.mdot s * Stage.tb s == 411e3 /\
    active_mass (Stage.tb s) s s == 27.2e3 + 116e3.
Proof.
  eexists. split; [reflexivity |].
  eapply (init_invariant "Stage 1" 7426e3 0.3 10.75 282 27.2e3 411e3 116e3).
  reflexivity.
Defined.

Section burn.
Context {EX : Externals Q}.

(** X7. With two stages as constructed from positive thrusts and specific
    impulses and masses [Mf] that are not negative, the mass [EqOfM] returns
    stays between the mass left at burnout and the total mass of the stage
    that burns: between [Ms + Mp] and [M] of stage 1 up to its burn time,
    and of stage 2 from then until the burn time of stage 2 has passed as
    well.  In particular it is positive there when [Ms + Mp] is. *)
Theorem mass_within_burn (n1 n2 : string)
    (T1 c1 a1 I1 Ms1 Mf1 Mp1 T2 c2 a2 I2 Ms2 Mf2 Mp2 : Q)
    (s1 s2 : Stage.t Q) (rest : list (Stage.t Q)) (s : State.t Q) (t : Q) :
  Stage.init n1 T1 c1 a1 I1 Ms1 Mf1 Mp1 = mret s1 ->
  Stage.init n2 T2 c2 a2 I2 Ms2 Mf2 Mp2 = mret s2 ->
  0 < T1 -> 0 < I1 -> 0 <= Mf1 -> 0 < T2 -> 0 < I2 -> 0 <= Mf2 ->
  0 <= t -> t <= Stage.tb s1 + Stage.tb s2 ->
  exists out d v,
    EqOfM s t (s1 :: s2 :: rest) = mkPy out (Ok (d, v)) /\
    (t <= Stage.tb s1 -> Ms1 + Mp1 <= Diag.M v <= Ms1 + Mf1 + Mp1) /\
    (Stage.tb s1 < t -> Ms2 + Mp2 <= Diag.M v <= Ms2 + Mf2 + Mp2).
Proof.
  rewrite !init_cases. intros C1 C2 PT1 PI1 PM1 PT2 PI2 PM2 P0 PB.
  assert (EI1 : Qeq_bool I1 0 = false) by (apply Qeq_bool_false; lra).
  assert (ET1 : Qeq_bool T1 0 = false) by (apply Qeq_bool_false; lra).
  assert (EI2 : Qeq_bool I2 0 = false) by (apply Qeq_bool_false; lra).
  assert (ET2 : Qeq_bool T2 0 = false) by (apply Qeq_bool_false; lra).
  rewrite EI1, ET1 in C1. rewrite EI2, ET2 in C2. cbn [orb] in C1, C2.
  injection C1 as <-. injection C2 as <-.
  cbn [Stage.tb] in *.
  set (m1 := T1 / (I1 * 9.81)) in *. set (m2 := T2 / (I2 * 9.81)) in *.
  assert (Pm1 : 0 < m1) by (apply Qlt_shift_div_l; lra).
  assert (Pm2 : 0 < m2) by (apply Qlt_shift_div_l; lra).
  assert (B1 : m1 * (Mf1 / m1) == Mf1) by (field; lra).
  assert (B2 : m2 * (Mf2 / m2) == Mf2) by (field; lra).
  eexists _, _, _. split; [apply EqOfM_eq |].
  unfold motion, active_mass. cbn [snd Diag.M Stage.tb Stage.M Stage.mdot].
  fold m1 m2. split.
  - intros L. assert (E : (t <=? Mf1 / m1) = true) by now apply Qle_bool_iff.
    rewrite E.
    assert (0 <= m1 * t) by (apply Qmult_le_0_compat; lra).
    assert (m1 * t <= m1 * (Mf1 / m1)) by (apply Qmult_le_l; assumption).
    split; lra.
  - intros L. assert (E : (t <=? Mf1 / m1) = false) by now apply Qle_bool_false.
    rewrite E.
    assert (0 <= m2 * (t - Mf1 / m1)) by (apply Qmult_le_0_compat; lra).
    assert (m2 * (t - Mf1 / m1) <= m2 * (Mf2 / m2))
      by (apply Qmult_le_l; [assumption | lra]).
    split; lra.
Qed.
End burn.

Lemma mass_within_burn_witness :
  exists out d v,
    @EqOfM Q exact Sample.externals (State.mk 0 6378e3 0 0) 200
      [Sample.stage "Stage 1" 7426e3 282 27.2e3 411e3 116e3;
       Sample.stage "Stage 2" 934e3 348 4.5e3 111.5e3 0]
    = mkPy out (Ok (d, v)) /\
    4.5e3 + 0 <= Diag.M v <= 4.5e3 + 111.5e3 + 0.
Proof.
  destruct (@mass_within_burn Sample.externals "Stage 1" "Stage 2"
              7426e3 0.3 10.75 282 27.2e3 411e3 116e3
              934e3 0.3 10.75 348 4.5e3 111.5e3 0
              (Sample.stage "Stage 1" 7426e3 282 27.2e3 411e3 116e3)
              (Sample.stage "Stage 2" 934e3 348 4.5e3 111.5e3 0)
              [] (State.mk 0 6378e3 0 0) 200)
    as (out & d & v & E & _ & B);
    [reflexivity | reflexivity | reflexivity | reflexivity | discriminate
     | reflexivity | reflexivity | discriminate | discriminate
     | vm_compute; discriminate |].
  exists out, d, v. split; [exact E |]. apply B. vm_compute. reflexivity.
Defined.

(** ** The drag coefficient and the direction of drag *)

Lemma Qsquare_nonneg (x : Q) : 0 <= x * x.
Proof.
  destruct (Qlt_le_dec x 0) as [N | P].
  - assert (E : x * x == (- x) * (- x)) by ring.
    rewrite E. apply Qmult_le_0_compat; lra.
  - now apply Qmult_le_0_compat.
Qed.

Lemma Cd_low_lower (M : Q) : M <= 1.25 -> 0.1182 <= Stage.Cd_low M.
Proof.
  intros L.
  assert (S1 : 0 <= (M * M) * (1.25 - M))
    by (apply Qmult_le_0_compat; [apply Qsquare_nonneg | lra]).
  pose proof (Qsquare_nonneg (M - (5228 # 13493))) as S2.
  assert (E : Stage.Cd_low M - 0.1182 ==
              0.0415 * ((M * M) * (1.25 - M))
              + 0.337325 * ((M - (5228 # 13493)) * (M - (5228 # 13493)))
              + (4525517 # 33732500))
    by (unfold Stage.Cd_low; exact_arith; ring).
  assert (0 <= Stage.Cd_low M - 0.1182); [| lra].
  rewrite E. lra.
Qed.

Lemma Cd_mid_lower (M : Q) : 1.25 <= M -> M <= 4 -> 0.2239 <= Stage.Cd_mid M.
Proof.
  intros L U.
  assert (S1 : 0 <= ((M - 3.3) * (M - 3.3)) * (M - 0.95))
    by (apply Qmult_le_0_compat; [apply Qsquare_nonneg | lra]).
  assert (S2 : 0 <= (M - 1.25) * (4 - M))
    by (apply Qmult_le_0_compat; lra).
  assert (C : 0 <= 0.049 * (((M - 3.3) * (M - 3.3)) * (M - 0.95))
                   + (0.0353295 + 0.00406 * M - 0.00045 * (M * M))).
  { assert (E : 0.0353295 + 0.00406 * M - 0.00045 * (M * M) ==
                0.00045 * ((M - 1.25) * (4 - M)) + 0.0016975 * M + 0.0375795)
      by ring.
    rewrite E. lra. }
  assert (E : Stage.Cd_mid M - 0.2239 ==
              (4 - M) * (0.049 * (((M - 3.3) * (M - 3.3)) * (M - 0.95))
                         + (0.0353295 + 0.00406 * M - 0.00045 * (M * M))))
    by (unfold Stage.Cd_mid; exact_arith; ring).
  assert (0 <= Stage.Cd_mid M - 0.2239); [| lra].
  rewrite E. apply Qmult_le_0_compat; [lra | exact C].
Qed.

Lemma Cd_high_lower (M : Q) : M <= 10 -> 0.1182 <= Stage.Cd_high M.
Proof.
  intros U.
  pose proof (Qsquare_nonneg (M - (325 # 74))) as S1.
  assert (E : Stage.Cd_high M - 0.1182 ==
              (10 - M) * (0.0037 * ((M - (325 # 74)) * (M - (325 # 74)))
                          + (4183 # 296000)))
    by (unfold Stage.Cd_high; exact_arith; ring).
  assert (0 <= Stage.Cd_high M - 0.1182); [| lra].
  rewrite E. apply Qmult_le_0_compat; lra.
Qed.

Lemma Cd_piecewise_lower (M : Q) : 0.1182 <= Cd_piecewise M.
Proof.
  unfold Cd_piecewise.
  destruct (M <=? 1.25) eqn:E1.
  { apply Qle_bool_iff in E1. now apply Cd_low_lower. }
  apply Qle_bool_false in E1.
  destruct (M <=? 4) eqn:E4.
  { apply Qle_bool_iff in E4.
    apply Qle_trans with 0.2239; [lra | apply Cd_mid_lower; lra]. }
  destruct (M <=? 10) eqn:E10.
  { apply Qle_bool_iff in E10. now apply Cd_high_lower. }
  unfold Stage.Cd_top. exact_arith. lra.
Qed.

(** X8. The drag coefficient of [GetDrag] is never less than 0.1182, for
    any Mach number (negative ones included): the chain always binds [Cd]
    to a value of at least 0.1182, a bound that is met at Mach 10. *)
Theorem Cd_at_least (M : Q) :
  (exists Cd, Stage.Cd_of_Mach M = Some Cd /\ 0.1182 <= Cd) /\
  Stage.Cd_of_Mach 10 = Some (Stage.Cd_high 10) /\
  Stage.Cd_high 10 == 0.1182.
Proof.
  split; [| split; [reflexivity | vm_compute; reflexivity]].
  exists (Cd_piecewise M).
  split; [apply Cd_of_Mach_piecewise | apply Cd_piecewise_lower].
Qed.

(** X9. [GetDrag] raises UnboundLocalError exactly where no branch of its
    chain has bound [Cd] (in double precision: at a Mach number that is
    nan), and returns the two drag components otherwise.  The components it
    returns are in the proportion of [vx] and [vy], and vanish when the
    speed given is zero; where density, speed and reference area are not
    negative, each component has the sign of the velocity component it
    belongs to (the force [EqOfM] subtracts points along the velocity). *)
Theorem GetDrag_direction :
  (forall (num : Type) (AR : Arith num) (EX : Externals num)
          (self : Stage.t num) (h V vx vy : num),
     Stage.GetDrag self h V vx vy =
     match Stage.Cd_of_Mach (div V (np_sqrt (mul (mul (lit 1.14) (lit 287))
                                                  (Atmosphere h).1))) with
     | Some Cd =>
         mret (mul (mul (mul (mul (mul (lit 0.5) (Atmosphere h).2) vx) V)
                      (Stage.A self)) Cd,
               mul (mul (mul (mul (mul (lit 0.5) (Atmosphere h).2) vy) V)
                      (Stage.A self)) Cd)
     | None => raise UnboundLocalError
     end) /\
  (forall (EX : Externals Q) (self : Stage.t Q) (h V vx vy Dx Dy : Q),
     Stage.GetDrag self h V vx vy = mret (Dx, Dy) ->
     Dx * vy == Dy * vx /\
     (V == 0 -> Dx == 0 /\ Dy == 0) /\
     (0 <= (Atmosphere h).2 -> 0 <= V -> 0 <= Stage.A self ->
      0 <= Dx * vx /\ 0 <= Dy * vy)) /\
  @Stage.GetDrag float binary64 Sample64.externals Sample64.F9S1
    0%float nan 0%float 0%float
  = raise UnboundLocalError.
Proof.
  split; [intros; apply GetDrag_unfold |]. split; [| vm_compute; reflexivity].
  intros EX self h V vx vy Dx Dy. rewrite GetDrag_eq. intros [= <- <-].
  set (rho := (Atmosphere h).2).
  set (C := Cd_piecewise _).
  assert (PC : 0 <= C) by (pose proof (Cd_piecewise_lower
    (V / np_sqrt (1.14 * 287 * (Atmosphere h).1))) as PL; fold C in PL; lra).
  split; [ring |]. split.
  - intros ->. split; ring.
  - intros Pr PV PA.
    assert (K : 0 <= 0.5 * rho * V * Stage.A self * C).
    { repeat apply Qmult_le_0_compat; try assumption; lra. }
    split.
    + assert (E : 0.5 * rho * vx * V * Stage.A self * C * vx ==
                  0.5 * rho * V * Stage.A self * C * (vx * vx)) by ring.
      rewrite E. apply Qmult_le_0_compat; [exact K | apply Qsquare_nonneg].
    + assert (E : 0.5 * rho * vy * V * Stage.A self * C * vy ==
                  0.5 * rho * V * Stage.A self * C * (vy * vy)) by ring.
      rewrite E. apply Qmult_le_0_compat; [exact K | apply Qsquare_nonneg].
Qed.

Lemma GetDrag_direction_witness :
  exists Dx Dy,
    @Stage.GetDrag Q exact Sample.externals
      (Sample.stage "Stage 1" 7426e3 282 27.2e3 411e3 116e3) 1000 500 300 400
    = mret (Dx, Dy) /\
    0 <= Dx * 300 /\ 0 <= Dy * 400.
Proof.
  destruct (@Stage.GetDrag Q exact Sample.externals
              (Sample.stage "Stage 1" 7426e3 282 27.2e3 411e3 116e3)
              1000 500 300 400) as [out [[Dx Dy] | e |]] eqn:E;
    [| vm_compute in E; discriminate..].
  assert (O : out = []) by (vm_compute in E; now injection E).
  subst out. exists Dx, Dy. split; [reflexivity |].
  destruct GetDrag_direction as (_ & D & _).
  destruct (D Sample.externals _ _ _ _ _ _ _ E) as (_ & _ & S).
  apply S; discriminate.
Defined.

(** ** One stage at a time *)

(** X15. Up to the burn time of stage 1 the second stage plays no part in
    what [EqOfM] returns; after it, of the first stage only the burn time
    and the area do: its thrust, mass flow rate and total mass are then out
    of the equations altogether. *)
Theorem EqOfM_one_stage {EX : Externals Q} (s : State.t Q) (t : Q)
    (s1 s2 : Stage.t Q) (rest : list (Stage.t Q)) :
  (t <= Stage.tb s1 ->
   forall (s2' : Stage.t Q) (rest' : list (Stage.t Q)),
     EqOfM s t (s1 :: s2' :: rest') = EqOfM s t (s1 :: s2 :: rest)) /\
  (Stage.tb s1 < t ->
   forall s1' : Stage.t Q,
     Stage.tb s1' = Stage.tb s1 -> Stage.A s1' = Stage.A s1 ->
     EqOfM s t (s1' :: s2 :: rest) = EqOfM s t (s1 :: s2 :: rest)).
Proof.
  split.
  - intros L s2' rest'. rewrite !EqOfM_eq. apply Qle_bool_iff in L.
    unfold motion, active_mass, active_thrust. now rewrite L.
  - intros L s1' Eb Ea. rewrite !EqOfM_eq, Ea. apply Qle_bool_false in L.
    unfold motion, active_mass, active_thrust, gravity_turn_angle.
    now rewrite Eb, L.
Qed.

Lemma EqOfM_one_stage_witness :
  @EqOfM Q exact Sample.externals (State.mk 0 6378e3 0 0) 1
    [Sample.stage "Stage 1" 7426e3 282 27.2e3 411e3 116e3;
     Sample.stage "Other" 1 2 3 4 5] =
  @EqOfM Q exact Sample.externals (State.mk 0 6378e3 0 0) 1
    [Sample.stage "Stage 1" 7426e3 282 27.2e3 411e3 116e3;
     Sample.stage "Stage 2" 934e3 348 4.5e3 111.5e3 0].
Proof.
  destruct (@EqOfM_one_stage Sample.externals (State.mk 0 6378e3 0 0) 1
              (Sample.stage "Stage 1" 7426e3 282 27.2e3 411e3 116e3)
              (Sample.stage "Stage 2" 934e3 348 4.5e3 111.5e3 0) [])
    as [B _].
  apply B. vm_compute. discriminate.
Defined.

(** ** How the integrator can end *)

(** X1. [euler] always ends (the imported functions taken to return): a
    pass of its loop beyond the rows allocated raises, so the loop cannot
    go on for ever.  It ends in one of three ways.  It raises the exception
    of [np.arange], where that fails, before anything else is done; or its
    loop raises, and then the exception is IndexError (a stage list shorter
    than two, or a pass that writes beyond the rows allocated) or
    UnboundLocalError ([M] in [EqOfM] or [Cd] in [GetDrag] read unbound);
    or it returns two tables of [steps + 1] rows. *)
Theorem euler_outcome {num : Type} {AR : Arith num} {EX : Externals num}
    (STATE0 : State.t num) (t0 dt Tf : num) (stages : list (Stage.t num)) :
  result (euler STATE0 t0 dt Tf stages) <> Diverged /\
  (forall e : exn,
     np_arange_len t0 Tf dt = inl e ->
     euler STATE0 t0 dt Tf stages = raise e) /\
  (forall (steps : nat) (e : exn),
     np_arange_len t0 Tf dt = inr steps ->
     result (euler STATE0 t0 dt Tf stages) = Raise e ->
     e = IndexError \/ e = UnboundLocalError) /\
  (forall (STATEF : list (TableRow.t num)) (V : list (Diag.t num)),
     result (euler STATE0 t0 dt Tf stages) = Ok (STATEF, V) ->
     exists steps : nat,
       np_arange_len t0 Tf dt = inr steps /\
       length STATEF = (steps + 1)%nat /\ length V = (steps + 1)%nat).
Proof.
  split; [apply euler_ends |]. split; [apply euler_arange_raises |]. split.
  - intros steps e EA R. unfold euler in R.
    rewrite result_bind, (euler_run_unfold _ _ _ _ _ steps EA) in R.
    destruct (result (euler_loop (steps + 1) dt Tf stages t0 0
                        (arrays_at STATE0 t0 dt stages steps 0)))
      as [r | e' |] eqn:RL; [discriminate | | discriminate].
    injection R as <-.
    apply (euler_loop_raises STATE0 t0 dt Tf stages steps (steps + 1) e' 0%nat);
      [lia | exact RL].
  - intros STATEF V R.
    destruct (euler_returns _ _ _ _ _ _ _ R)
      as (steps & n & EA & _ & _ & _ & _ & -> & -> & _).
    exists steps. split; [exact EA |].
    split; [apply STATEF_length | apply v_states_length].
Qed.

Lemma euler_outcome_witness :
  exists e : exn,
    result (@euler float binary64 Sample64.externals
              (State.mk 0%float 6378e3%float 0%float 0%float)
              0%float 0.1%float 1%float [Sample64.F9S1; Sample64.F9S2])
    = Raise e /\ (e = IndexError \/ e = UnboundLocalError).
Proof.
  destruct (result (@euler float binary64 Sample64.externals
              (State.mk 0%float 6378e3%float 0%float 0%float)
              0%float 0.1%float 1%float [Sample64.F9S1; Sample64.F9S2]))
    as [r | e |] eqn:R; [vm_compute in R; discriminate | | vm_compute in R; discriminate].
  exists e. split; [reflexivity |].
  destruct (@euler_outcome float binary64 Sample64.externals
              (State.mk 0%float 6378e3%float 0%float 0%float)
              0%float 0.1%float 1%float [Sample64.F9S1; Sample64.F9S2])
    as (_ & _ & N & _).
  apply (N 10%nat e); [vm_compute; reflexivity | exact R].
Defined.

(** ** The tables of a run that returns *)

Section printed_facts.
Context {num : Type} {AR : Arith num} {EX : Externals num}.
Variables (STATE0 : State.t num) (t0 dt : num).
Variable stages : list (Stage.t num).

Lemma printed_app (k m m' : nat) :
  printed STATE0 t0 dt stages k (m + m') =
  printed STATE0 t0 dt stages k m ++ printed STATE0 t0 dt stages (k + m) m'.
Proof. unfold printed. now rewrite seq_app, flat_map_app. Qed.

Lemma printed_notices (k m : nat) :
  Forall (fun l => l = altitude_notice) (printed STATE0 t0 dt stages k m) /\
  (length (printed STATE0 t0 dt stages k m) <= m)%nat.
Proof.
  revert k. induction m as [| m IH]; intros k.
  - split; [constructor | cbn; lia].
  - destruct (IH (S k)) as [F L].
    change (printed STATE0 t0 dt stages k (S m))
      with (stdout (EqOfM (state_at STATE0 t0 dt stages k) (time_of t0 dt k)
                      stages)
            ++ printed STATE0 t0 dt stages (S k) m).
    destruct (EqOfM_stdout (state_at STATE0 t0 dt stages k) (time_of t0 dt k)
                stages) as [-> | ->].
    + split; [exact F | cbn [app]; lia].
    + split; [constructor; [reflexivity | exact F] | cbn [app length]; lia].
Qed.

(** Where [EqOfM] returns it has printed what its altitude check prints. *)
Lemma EqOfM_stdout_Ok (s : State.t num) (t : num)
    (r : State.t num * Diag.t num) :
  result (EqOfM s t stages) = Ok r -> stdout (EqOfM s t stages) = notices s t.
Proof.
  destruct stages as [| s1 [| s2 rest]].
  - rewrite EqOfM_short by (cbn; lia). discriminate.
  - rewrite EqOfM_short by (cbn; lia). discriminate.
  - rewrite EqOfM_cases.
    destruct (Stage.Cd_of_Mach _); [destruct (mass_and_thrust _ _ _).1 |];
      cbn; try discriminate.
    reflexivity.
Qed.

Lemma printed_returned (k m : nat) :
  (forall i, (k <= i < k + m)%nat ->
     exists r, result (EqOfM (state_at STATE0 t0 dt stages i)
                         (time_of t0 dt i) stages) = Ok r) ->
  printed STATE0 t0 dt stages k m =
  flat_map (fun i => notices (state_at STATE0 t0 dt stages i) (time_of t0 dt i))
           (seq k m).
Proof.
  revert k. induction m as [| m IH]; intros k R; [reflexivity |].
  change (printed STATE0 t0 dt stages k (S m))
    with (stdout (EqOfM (state_at STATE0 t0 dt stages k) (time_of t0 dt k)
                    stages)
          ++ printed STATE0 t0 dt stages (S k) m).
  destruct (R k ltac:(lia)) as [r E].
  rewrite (EqOfM_stdout_Ok _ _ r E), IH; [reflexivity |].
  intros i Li. apply R. lia.
Qed.

(** What [euler] prints, however it ends. *)
Lemma euler_stdout (Tf : num) :
  exists m : nat,
    stdout (euler STATE0 t0 dt Tf stages) = printed STATE0 t0 dt stages 0 m /\
    (forall steps : nat,
       np_arange_len t0 Tf dt = inr steps -> (m <= steps + 1)%nat).
Proof.
  destruct (np_arange_len t0 Tf dt) as [e | steps] eqn:EA.
  - exists 0%nat. rewrite (euler_arange_raises _ _ _ _ _ e EA).
    split; [reflexivity | discriminate].
  - destruct (euler_loop_stdout STATE0 t0 dt Tf stages steps (steps + 1) 0%nat
                ltac:(lia)) as (m & Lm & Em).
    exists m. split; [| intros steps' [= <-]; lia].
    unfold euler. rewrite stdout_bind, (euler_run_unfold _ _ _ _ _ steps EA).
    cbn [time_of] in Em. rewrite Em.
    destruct (result (euler_loop _ _ _ _ _ _ _)); [| reflexivity..].
    cbn. apply app_nil_r.
Qed.

Lemma passes_unique (Tf : num) (n n' : nat) :
  passes t0 dt Tf n -> passes t0 dt Tf n' -> n = n'.
Proof.
  intros [P F] [P' F'].
  destruct (lt_eq_lt_dec n n') as [[L | E] | L]; [| exact E |].
  - rewrite (P' n L) in F. discriminate.
  - rewrite (P n' L) in F'. discriminate.
Qed.

Lemma time_of_add (k j : nat) :
  time_of (time_of t0 dt k) dt j = time_of t0 dt (k + j).
Proof.
  induction j as [| j IH]; [now rewrite Nat.add_0_r |].
  rewrite Nat.add_succ_r. cbn [time_of]. now rewrite IH.
Qed.

Lemma state_at_add (k j : nat) :
  state_at (state_at STATE0 t0 dt stages k) (time_of t0 dt k) dt stages j =
  state_at STATE0 t0 dt stages (k + j).
Proof.
  induction j as [| j IH]; [now rewrite Nat.add_0_r |].
  rewrite Nat.add_succ_r. cbn [state_at]. now rewrite IH, time_of_add.
Qed.

Lemma diag_at_add (k j : nat) :
  diag_at (state_at STATE0 t0 dt stages k) (time_of t0 dt k) dt stages j =
  diag_at STATE0 t0 dt stages (k + j).
Proof. unfold diag_at. now rewrite state_at_add, time_of_add. Qed.

Lemma printed_resume (k i m : nat) :
  printed (state_at STATE0 t0 dt stages k) (time_of t0 dt k) dt stages i m =
  printed STATE0 t0 dt stages (k + i) m.
Proof.
  revert i. induction m as [| m IH]; intros i; [reflexivity |].
  change (stdout (EqOfM (state_at (state_at STATE0 t0 dt stages k)
                           (time_of t0 dt k) dt stages i)
                    (time_of (time_of t0 dt k) dt i) stages)
          ++ printed (state_at STATE0 t0 dt stages k) (time_of t0 dt k) dt
               stages (S i) m =
          stdout (EqOfM (state_at STATE0 t0 dt stages (k + i))
                    (time_of t0 dt (k + i)) stages)
          ++ printed STATE0 t0 dt stages (S (k + i)) m).
  now rewrite IH, state_at_add, time_of_add, Nat.add_succ_r.
Qed.
End printed_facts.

(** X10. The tables of a run of [euler] that returns.  The loop has made
    [n] passes, those for which its test held, and fewer than there are
    rows.  Row 0 holds the initial state.  For every pass [i], [EqOfM] has
    returned at the state of row [i] and the time [t0] with [dt] added [i]
    times, row [i + 1] is row [i] plus [dt] times the derivative it
    returned (for the position: plus [dt] times the velocity of row [i]),
    and row [i] of the vehicle states is the vehicle state it returned.
    The rows after row [n], and the vehicle states from row [n] on, the
    last row among them, are still zero. *)
Theorem euler_rows {num : Type} {AR : Arith num} {EX : Externals num}
    (STATE0 : State.t num) (t0 dt Tf : num) (stages : list (Stage.t num))
    (STATEF : list (TableRow.t num)) (V : list (Diag.t num)) :
  result (euler STATE0 t0 dt Tf stages) = Ok (STATEF, V) ->
  exists n : nat,
    (n < length STATEF)%nat /\ length V = length STATEF /\
    passes t0 dt Tf n /\
    (exists r0, STATEF !! 0%nat = Some r0 /\ state_of r0 = STATE0) /\
    (forall i : nat, (i < n)%nat ->
       exists r r' d v,
         STATEF !! i = Some r /\ STATEF !! S i = Some r' /\
         result (EqOfM (state_of r) (time_of t0 dt i) stages) = Ok (d, v) /\
         state_of r' = euler_step dt (state_of r) d /\
         TableRow.X r' = add (TableRow.X r) (mul dt (TableRow.Vx r)) /\
         TableRow.Y r' = add (TableRow.Y r) (mul dt (TableRow.Vy r)) /\
         V !! i = Some v) /\
    (forall (i : nat) (r : TableRow.t num),
       (n < i)%nat -> STATEF !! i = Some r ->
       r = TableRow.mk (lit 0) (lit 0) (lit 0) (lit 0) (lit 0)) /\
    (forall (i : nat) (v : Diag.t num),
       (n <= i)%nat -> V !! i = Some v -> v = Diag.zeros) /\
    (exists v, V !! (length V - 1)%nat = Some v /\ v = Diag.zeros).
Proof.
  intros R.
  destruct (euler_returns _ _ _ _ _ _ _ R)
    as (steps & n & _ & _ & Ln & P & Rk & -> & -> & _).
  exists n. rewrite STATEF_length, v_states_length.
  split; [lia |]. split; [reflexivity |]. split; [exact P |].
  assert (St : forall i, (i <= n)%nat ->
            exists r, STATEF_of (arrays_at STATE0 t0 dt stages steps n) !! i
                      = Some r /\
                      state_of r = state_at STATE0 t0 dt stages i).
  { intros i Li. eexists. split; [apply STATEF_lookup; lia |].
    unfold state_of. cbn [TableRow.X TableRow.Y TableRow.Vx TableRow.Vy].
    rewrite !decide_True by lia. apply state_eta. }
  split; [| split; [| split; [| split]]].
  - destruct (St 0%nat ltac:(lia)) as (r0 & E0 & S0). now exists r0.
  - intros i Li.
    destruct (St i ltac:(lia)) as (r & Er & Sr).
    destruct (St (S i) ltac:(lia)) as (r' & Er' & Sr').
    destruct (Rk i Li) as [[d v] Ed].
    exists r, r', d, v. split; [exact Er |]. split; [exact Er' |].
    rewrite Sr. split; [exact Ed |].
    assert (Es : state_of r' = euler_step dt (state_at STATE0 t0 dt stages i) d).
    { rewrite Sr'. apply (state_at_S STATE0 t0 dt stages i (d, v) Ed). }
    split; [exact Es |].
    destruct (EqOfM_rates _ _ _ _ Ed) as [Ex Ey]. cbn [fst] in Ex, Ey.
    apply (f_equal State.rx) in Es as Hx. apply (f_equal State.ry) in Es as Hy.
    unfold euler_step in Hx, Hy. cbn [State.rx State.ry state_of] in Hx, Hy.
    rewrite Ex in Hx. rewrite Ey in Hy.
    apply (f_equal State.rx) in Sr as Sx. apply (f_equal State.ry) in Sr as Sy.
    apply (f_equal State.vx) in Sr as Svx. apply (f_equal State.vy) in Sr as Svy.
    cbn [State.rx State.ry State.vx State.vy state_of] in Sx, Sy, Svx, Svy.
    rewrite Sx, Sy, Svx, Svy.
    split; [exact Hx |]. split; [exact Hy |].
    rewrite v_states_lookup by lia. rewrite decide_True by lia.
    f_equal. apply (diag_at_eq STATE0 t0 dt stages i (d, v) Ed).
  - intros i r Li E.
    assert (B : (i < steps + 1)%nat).
    { rewrite <- (STATEF_length STATE0 t0 dt stages steps n).
      apply (lookup_lt_Some _ _ _ E). }
    rewrite STATEF_lookup in E by lia. injection E as <-.
    now rewrite !decide_False by lia.
  - intros i v Li E.
    assert (B : (i < steps + 1)%nat).
    { rewrite <- (v_states_length STATE0 t0 dt stages steps n).
      apply (lookup_lt_Some _ _ _ E). }
    rewrite v_states_lookup in E by lia. injection E as <-.
    now rewrite decide_False by lia.
  - eexists. split; [apply v_states_lookup; lia |].
    now rewrite decide_False by lia.
Qed.

Lemma euler_rows_witness :
  exists (STATEF : list (TableRow.t float)) (V : list (Diag.t float)),
    result (@euler float binary64 Sample64.externals
              (State.mk 0%float 6378e3%float 0%float 0%float)
              0%float 0.01%float 0.07%float [Sample64.F9S1; Sample64.F9S2])
    = Ok (STATEF, V) /\
    length STATEF = 9%nat /\
    exists n : nat, n = 7%nat /\ passes 0%float 0.01%float 0.07%float n /\
      forall (i : nat) (r : TableRow.t float),
        (n < i)%nat -> STATEF !! i = Some r ->
        r = TableRow.mk 0%float 0%float 0%float 0%float 0%float.
Proof.
  destruct (result (@euler float binary64 Sample64.externals
              (State.mk 0%float 6378e3%float 0%float 0%float)
              0%float 0.01%float 0.07%float [Sample64.F9S1; Sample64.F9S2]))
    as [[STATEF V] | e |] eqn:R; [| vm_compute in R; discriminate..].
  exists STATEF, V. split; [reflexivity |].
  destruct (euler_rows _ _ _ _ _ _ _ R)
    as (n & _ & _ & P & _ & _ & Z & _).
  assert (L : length STATEF = 9%nat).
  { vm_compute in R. injection R as <- _. reflexivity. }
  split; [exact L |]. exists n.
  assert (P7 : passes 0%float 0.01%float 0.07%float 7).
  { split; [| vm_compute; reflexivity].
    intros i Li. do 7 (destruct i as [| i]; [vm_compute; reflexivity |]). lia. }
  split; [exact (passes_unique _ _ _ _ _ P P7) |]. split; [exact P |].
  exact Z.
Defined.

(** X12. What a run prints.  Every line [euler] prints is the altitude
    notice of a call of [EqOfM], at most one for each pass of the loop: no
    more than [steps + 1] lines where [np.arange] has counted [steps], and
    none where [np.arange] fails.  A run that returns has printed, pass by
    pass, the notice of every pass that began after time 0 at an altitude
    that is not positive. *)
Theorem euler_prints_notices {num : Type} {AR : Arith num} {EX : Externals num}
    (STATE0 : State.t num) (t0 dt Tf : num) (stages : list (Stage.t num)) :
  Forall (fun l => l = altitude_notice)
         (stdout (euler STATE0 t0 dt Tf stages)) /\
  (forall steps : nat,
     np_arange_len t0 Tf dt = inr steps ->
     (length (stdout (euler STATE0 t0 dt Tf stages)) <= steps + 1)%nat) /\
  (forall e : exn,
     np_arange_len t0 Tf dt = inl e ->
     stdout (euler STATE0 t0 dt Tf stages) = []) /\
  (forall (STATEF : list (TableRow.t num)) (V : list (Diag.t num)),
     result (euler STATE0 t0 dt Tf stages) = Ok (STATEF, V) ->
     exists n : nat,
       (n < length STATEF)%nat /\ passes t0 dt Tf n /\
       stdout (euler STATE0 t0 dt Tf stages) =
       flat_map (fun i =>
                   if ltb (lit 0) (time_of t0 dt i)
                      && leb (altitude (state_at STATE0 t0 dt stages i)) (lit 0)
                   then [altitude_notice] else [])
                (seq 0 n)).
Proof.
  destruct (euler_stdout STATE0 t0 dt stages Tf) as (m & Em & Lm).
  destruct (printed_notices STATE0 t0 dt stages 0 m) as [F L].
  split; [now rewrite Em |]. split; [| split].
  - intros steps EA. rewrite Em. specialize (Lm steps EA). lia.
  - intros e EA. now rewrite (euler_arange_raises _ _ _ _ _ e EA).
  - intros STATEF V R.
    destruct (euler_returns _ _ _ _ _ _ _ R)
      as (steps & n & _ & _ & Ln & P & Rk & -> & _ & Eo).
    exists n. rewrite STATEF_length. split; [lia |]. split; [exact P |].
    rewrite Eo. apply printed_returned. intros i Li. apply Rk. lia.
Qed.

Lemma euler_prints_notices_witness :
  exists (STATEF : list (TableRow.t float)) (V : list (Diag.t float)),
    result (@euler float binary64 Sample64.externals
              (State.mk 0%float 6378e3%float 0%float 0%float)
              0%float 0.5%float 1%float [Sample64.F9S1; Sample64.F9S2])
    = Ok (STATEF, V) /\
    exists n : nat,
      (n < length STATEF)%nat /\
      stdout (@euler float binary64 Sample64.externals
                (State.mk 0%float 6378e3%float 0%float 0%float)
                0%float 0.5%float 1%float [Sample64.F9S1; Sample64.F9S2]) =
      flat_map (fun i =>
                  if ltb (lit 0) (time_of 0%float 0.5%float i)
                     && leb (@altitude float binary64 Sample64.externals
                               (@state_at float binary64 Sample64.externals
                                  (State.mk 0%float 6378e3%float 0%float
                                     0%float)
                                  0%float 0.5%float
                                  [Sample64.F9S1; Sample64.F9S2] i))
                          (lit 0)
                  then [altitude_notice] else [])
               (seq 0 n).
Proof.
  destruct (result (@euler float binary64 Sample64.externals
              (State.mk 0%float 6378e3%float 0%float 0%float)
              0%float 0.5%float 1%float [Sample64.F9S1; Sample64.F9S2]))
    as [[STATEF V] | e |] eqn:R; [| vm_compute in R; discriminate..].
  exists STATEF, V. split; [reflexivity |].
  destruct (@euler_prints_notices float binary64 Sample64.externals
              (State.mk 0%float 6378e3%float 0%float 0%float)
              0%float 0.5%float 1%float [Sample64.F9S1; Sample64.F9S2])
    as (_ & _ & _ & N).
  destruct (N STATEF V R) as (n & Ln & _ & En).
  exists n. split; [exact Ln | exact En].
Defined.

(** ** Runs from one start *)

(** X13. Two runs of [euler] from the same state and start time with the
    same step, to different final times, both of which return: the rows
    both loops have written are the same in the two state tables, and so
    are the vehicle states of the passes both have made; the run that has
    made fewer passes has printed a prefix of what the other has. *)
Theorem euler_longer_run {num : Type} {AR : Arith num} {EX : Externals num}
    (STATE0 : State.t num) (t0 dt Tf Tf' : num) (stages : list (Stage.t num))
    (STATEF STATEF' : list (TableRow.t num)) (V V' : list (Diag.t num)) :
  result (euler STATE0 t0 dt Tf stages) = Ok (STATEF, V) ->
  result (euler STATE0 t0 dt Tf' stages) = Ok (STATEF', V') ->
  exists n n' : nat,
    passes t0 dt Tf n /\ passes t0 dt Tf' n' /\
    (n < length STATEF)%nat /\ (n' < length STATEF')%nat /\
    (forall i : nat, (i <= n)%nat -> (i <= n')%nat ->
       exists r, STATEF !! i = Some r /\ STATEF' !! i = Some r) /\
    (forall i : nat, (i < n)%nat -> (i < n')%nat ->
       exists v, V !! i = Some v /\ V' !! i = Some v) /\
    ((n <= n')%nat ->
     stdout (euler STATE0 t0 dt Tf stages) `prefix_of`
     stdout (euler STATE0 t0 dt Tf' stages)).
Proof.
  intros R R'.
  destruct (euler_returns _ _ _ _ _ _ _ R)
    as (steps & n & _ & _ & Ln & P & _ & -> & -> & Eo).
  destruct (euler_returns _ _ _ _ _ _ _ R')
    as (steps' & n' & _ & _ & Ln' & P' & _ & -> & -> & Eo').
  exists n, n'. rewrite !STATEF_length.
  split; [exact P |]. split; [exact P' |]. split; [lia |]. split; [lia |].
  split; [| split].
  - intros i Li Li'. eexists. split; [apply STATEF_lookup; lia |].
    rewrite STATEF_lookup by lia.
    repeat case_decide; try lia; reflexivity.
  - intros i Li Li'. eexists. split; [apply v_states_lookup; lia |].
    rewrite v_states_lookup by lia.
    repeat case_decide; try lia; reflexivity.
  - intros L. rewrite Eo, Eo'.
    replace n' with (n + (n' - n))%nat by lia.
    rewrite printed_app. now apply prefix_app_r.
Qed.

Lemma euler_longer_run_witness :
  exists (STATEF STATEF' : list (TableRow.t float)) (V V' : list (Diag.t float)),
    result (@euler float binary64 Sample64.externals
              (State.mk 0%float 6378e3%float 0%float 0%float)
              0%float 0.5%float 1%float [Sample64.F9S1; Sample64.F9S2])
    = Ok (STATEF, V) /\
    result (@euler float binary64 Sample64.externals
              (State.mk 0%float 6378e3%float 0%float 0%float)
              0%float 0.5%float 2%float [Sample64.F9S1; Sample64.F9S2])
    = Ok (STATEF', V') /\
    exists r, STATEF !! 1%nat = Some r /\ STATEF' !! 1%nat = Some r.
Proof.
  destruct (result (@euler float binary64 Sample64.externals
              (State.mk 0%float 6378e3%float 0%float 0%float)
              0%float 0.5%float 1%float [Sample64.F9S1; Sample64.F9S2]))
    as [[STATEF V] | e |] eqn:R; [| vm_compute in R; discriminate..].
  destruct (result (@euler float binary64 Sample64.externals
              (State.mk 0%float 6378e3%float 0%float 0%float)
              0%float 0.5%float 2%float [Sample64.F9S1; Sample64.F9S2]))
    as [[STATEF' V'] | e |] eqn:R'; [| vm_compute in R'; discriminate..].
  exists STATEF, STATEF', V, V'. split; [reflexivity |]. split; [reflexivity |].
  destruct (euler_longer_run _ _ _ _ _ _ _ _ _ _ R R')
    as (n & n' & P & P' & _ & _ & S & _).
  assert (P2 : passes 0%float 0.5%float 1%float 2).
  { split; [| vm_compute; reflexivity].
    intros i Li. do 2 (destruct i as [| i]; [vm_compute; reflexivity |]). lia. }
  assert (P4 : passes 0%float 0.5%float 2%float 4).
  { split; [| vm_compute; reflexivity].
    intros i Li. do 4 (destruct i as [| i]; [vm_compute; reflexivity |]). lia. }
  rewrite (passes_unique _ _ _ _ _ P P2) in S.
  rewrite (passes_unique _ _ _ _ _ P' P4) in S.
  apply (S 1%nat); lia.
Defined.

(** X14. A run can be taken up again from one of its rows.  Where a run
    of [euler] returns and has made [k] passes or more, a second run from
    the state of its row [k] at the time [t0] with [dt] added [k] times,
    with the same step and final time, if it returns, repeats the rest of
    the first: its rows are the rows of the first from row [k] on as far
    as the loop has written them (the time of its row 0 apart, which is 0),
    its vehicle states those of the passes from [k] on, and the first run
    has printed what its first [k] passes printed and then what the second
    run prints. *)
Theorem euler_resume {num : Type} {AR : Arith num} {EX : Externals num}
    (STATE0 : State.t num) (t0 dt Tf : num) (stages : list (Stage.t num))
    (k : nat) (rk : TableRow.t num)
    (STATEF STATEF' : list (TableRow.t num)) (V V' : list (Diag.t num)) :
  result (euler STATE0 t0 dt Tf stages) = Ok (STATEF, V) ->
  (forall i : nat, (i < k)%nat -> ltb (time_of t0 dt i) Tf = true) ->
  STATEF !! k = Some rk ->
  result (euler (state_of rk) (time_of t0 dt k) dt Tf stages)
  = Ok (STATEF', V') ->
  exists n : nat,
    (k <= n)%nat /\ (n < length STATEF)%nat /\ (n - k < length STATEF')%nat /\
    passes t0 dt Tf n /\ passes (time_of t0 dt k) dt Tf (n - k) /\
    (forall j : nat, (j <= n - k)%nat ->
       exists r r',
         STATEF !! (k + j)%nat = Some r /\ STATEF' !! j = Some r' /\
         state_of r = state_of r' /\
         ((1 <= j)%nat -> TableRow.T r = TableRow.T r')) /\
    (forall j : nat, (j < n - k)%nat ->
       exists v, V !! (k + j)%nat = Some v /\ V' !! j = Some v) /\
    stdout (euler STATE0 t0 dt Tf stages) =
    printed STATE0 t0 dt stages 0 k
    ++ stdout (euler (state_of rk) (time_of t0 dt k) dt Tf stages).
Proof.
  intros R Pk Ek R'.
  destruct (euler_returns _ _ _ _ _ _ _ R)
    as (steps & n & _ & _ & Ln & P & _ & -> & -> & Eo).
  assert (Lk : (k <= n)%nat).
  { destruct (le_lt_dec k n) as [L | L]; [exact L |].
    destruct P as [_ F]. rewrite (Pk n L) in F. discriminate. }
  rewrite STATEF_lookup in Ek by lia. injection Ek as <-.
  assert (Sk : state_of
                 (TableRow.mk
                    (if decide (1 <= k <= n)%nat then time_of t0 dt k else lit 0)
                    (if decide (k <= n)%nat
                     then State.rx (state_at STATE0 t0 dt stages k) else lit 0)
                    (if decide (k <= n)%nat
                     then State.ry (state_at STATE0 t0 dt stages k) else lit 0)
                    (if decide (k <= n)%nat
                     then State.vx (state_at STATE0 t0 dt stages k) else lit 0)
                    (if decide (k <= n)%nat
                     then State.vy (state_at STATE0 t0 dt stages k) else lit 0))
               = state_at STATE0 t0 dt stages k).
  { unfold state_of. cbn [TableRow.X TableRow.Y TableRow.Vx TableRow.Vy].
    rewrite !decide_True by lia. apply state_eta. }
  rewrite Sk in *. clear Sk.
  destruct (euler_returns _ _ _ _ _ _ _ R')
    as (steps' & m & _ & _ & Lm & P' & _ & -> & -> & Eo').
  assert (Em : m = (n - k)%nat).
  { apply (passes_unique (time_of t0 dt k) dt Tf); [exact P' |].
    destruct P as [T F]. split.
    - intros i Li. rewrite time_of_add. apply T. lia.
    - rewrite time_of_add. now replace (k + (n - k))%nat with n by lia. }
  subst m. exists n. rewrite !STATEF_length.
  split; [exact Lk |]. split; [lia |]. split; [lia |].
  split; [exact P |]. split; [exact P' |]. split; [| split].
  - intros j Lj. eexists _, _.
    split; [apply STATEF_lookup; lia |]. split; [apply STATEF_lookup; lia |].
    unfold state_of.
    cbn [TableRow.X TableRow.Y TableRow.Vx TableRow.Vy TableRow.T].
    rewrite state_at_add, time_of_add.
    split; [repeat case_decide; try lia; reflexivity |].
    intros L1. repeat case_decide; try lia; reflexivity.
  - intros j Lj. eexists.
    split; [apply v_states_lookup; lia |].
    rewrite v_states_lookup by lia. rewrite diag_at_add.
    repeat case_decide; try lia; reflexivity.
  - rewrite Eo, Eo', printed_resume, Nat.add_0_r.
    replace n with (k + (n - k))%nat at 1 by lia.
    apply printed_app.
Qed.

Lemma euler_resume_witness :
  exists (rk : TableRow.t float)
         (STATEF STATEF' : list (TableRow.t float)) (V V' : list (Diag.t float)),
    result (@euler float binary64 Sample64.externals
              (State.mk 0%float 6378e3%float 0%float 0%float)
              0%float 0.5%float 2%float [Sample64.F9S1; Sample64.F9S2])
    = Ok (STATEF, V) /\
    STATEF !! 2%nat = Some rk /\
    result (@euler float binary64 Sample64.externals (state_of rk)
              1%float 0.5%float 2%float [Sample64.F9S1; Sample64.F9S2])
    = Ok (STATEF', V') /\
    exists n : nat, (2 <= n)%nat /\ (n - 2 < length STATEF')%nat.
Proof.
  destruct (result (@euler float binary64 Sample64.externals
              (State.mk 0%float 6378e3%float 0%float 0%float)
              0%float 0.5%float 2%float [Sample64.F9S1; Sample64.F9S2]))
    as [[STATEF V] | e |] eqn:R; [| vm_compute in R; discriminate..].
  pose proof R as R0. vm_compute in R0. injection R0 as <- _.
  match type of R with
  | _ = Ok (?S, _) => destruct (S !! 2%nat) as [rk |] eqn:Ek; [| discriminate]
  end.
  pose proof Ek as Ek0. vm_compute in Ek0. injection Ek0 as <-.
  match type of Ek with
  | _ = Some ?r =>
      destruct (result (@euler float binary64 Sample64.externals (state_of r)
                  1%float 0.5%float 2%float [Sample64.F9S1; Sample64.F9S2]))
        as [[STATEF' V'] | e |] eqn:R'; [| vm_compute in R'; discriminate..]
  end.
  match type of Ek with
  | ?S !! _ = Some ?r => exists r, S, STATEF', V, V'
  end.
  split; [reflexivity |]. split; [exact Ek |]. split; [exact R' |].
  match type of Ek with
  | ?S !! _ = Some ?r =>
      destruct (@euler_resume float binary64 Sample64.externals
                  (State.mk 0%float 6378e3%float 0%float 0%float)
                  0%float 0.5%float 2%float [Sample64.F9S1; Sample64.F9S2]
                  2%nat r S STATEF' V V' R)
        as (n & Lk & _ & Ln & _); [| exact Ek | exact R' |]
  end.
  { intros i Li. do 2 (destruct i as [| i]; [vm_compute; reflexivity |]). lia. }
  exists n. split; [exact Lk | exact Ln].
Defined.
